(** * mcp-demo: the file tool, the character counter and the agent constructor

    A shallow embedding of [src/main.py] and [src/agent.py].

    Conventions of the model.
    - A Python [str] that is a path, a request parameter or a message is a
      [string]: its characters are the code points 0..255.  Text decoded
      from a file can hold any code point and is a list of code points
      ([text]).
    - A raised exception is the [Raise] case of [result]; [try]/[except] is
      a match on it.
    - [os.environ], the request's parameter dict and the file system are
      finite maps ([gmap]) keyed by strings.
    - [os.path] is [posixpath]. *)

From Stdlib Require Import ZArith NArith List Ascii String DecimalString Lia.
From Stdlib.Strings Require Import Byte.
From stdpp Require Import base option gmap strings.
Import ListNotations.
Local Open Scope string_scope.

(* ================================================================== *)
(** * Exceptions and results *)

Inductive exn : Type :=
| HTTPException (status_code : Z) (detail : string)
| ValueError (msg : string)
| NameError (name : string)
| UnicodeDecodeError (encoding : string)
| PermissionError (filename : string)
| IsADirectoryError (filename : string)
| FileNotFoundError (filename : string)
| LookupError (msg : string).

Inductive result (A : Type) : Type :=
| Ok (a : A)
| Raise (e : exn).
Arguments Ok {A} a.
Arguments Raise {A} e.

Definition bind {A B : Type} (r : result A) (k : A -> result B) : result B :=
  match r with
  | Ok a => k a
  | Raise e => Raise e
  end.

Notation "'let*' x ':=' r 'in' k" := (bind r (fun x => k))
  (at level 10, x name, r at level 100, k at level 200).

(* ================================================================== *)
(** * The [str] methods the code calls *)

Module Str.

Definition code (c : ascii) : N := N_of_ascii c.

Definition between (lo hi n : N) : bool := (lo <=? n)%N && (n <=? hi)%N.

(** Upper-case letters among the code points 0..255: [A]..[Z], and
    U+00C0..U+00DE without the multiplication sign U+00D7. *)
Definition is_upper (c : ascii) : bool :=
  between 65 90 (code c) || between 192 214 (code c) || between 216 222 (code c).

Definition lower_char (c : ascii) : ascii :=
  if is_upper c then ascii_of_N (code c + 32) else c.

(** [s.lower()] *)
Fixpoint lower (s : string) : string :=
  match s with
  | EmptyString => EmptyString
  | String c r => String (lower_char c) (lower r)
  end.

(** [s.startswith(p)] *)
Definition startswith (s p : string) : bool := String.prefix p s.

(** [s.count(sub)]: the occurrences of [sub] in [s] that do not overlap,
    scanning from the left.  [skip] is the number of characters still
    covered by the occurrence found last. *)
Fixpoint count_from (sub : string) (skip : nat) (s : string) : nat :=
  match s with
  | EmptyString =>
      match skip with
      | O => if String.prefix sub EmptyString then 1 else 0
      | S _ => 0
      end
  | String _ r =>
      match skip with
      | S k => count_from sub k r
      | O =>
          if String.prefix sub s
          then S (count_from sub (String.length sub - 1) r)
          else count_from sub 0 r
      end
  end.

Definition count (s sub : string) : nat := count_from sub 0 s.

(** [sep.join(parts)] *)
Definition join (sep : string) (parts : list string) : string :=
  String.concat sep parts.

(** [s.split(sep)] for a separator of one character. *)
Fixpoint split (sep : ascii) (s : string) : list string :=
  match s with
  | EmptyString => [EmptyString]
  | String c r =>
      if Ascii.eqb c sep then EmptyString :: split sep r
      else match split sep r with
           | [] => [String c EmptyString]
           | w :: ws => String c w :: ws
           end
  end.

(** [s.rstrip(c)] for one character. *)
Fixpoint rstrip (c : ascii) (s : string) : string :=
  match s with
  | EmptyString => EmptyString
  | String a r =>
      match rstrip c r with
      | EmptyString => if Ascii.eqb a c then EmptyString else String a EmptyString
      | r' => String a r'
      end
  end.

(** [s * n] *)
Fixpoint times (s : string) (n : nat) : string :=
  match n with
  | O => EmptyString
  | S k => s ++ times s k
  end.

(** [str(n)] for a natural number. *)
Definition of_nat (n : nat) : string := NilEmpty.string_of_uint (Nat.to_uint n).

(** The positions of [s] that hold the character [c]. *)
Definition positions_holding (c : ascii) (s : string) : list nat :=
  List.filter (fun i => match String.get i s with
                        | Some a => Ascii.eqb a c
                        | None => false
                        end)
              (seq 0 (String.length s)).

(** The number of characters of [s] that satisfy [p]. *)
Fixpoint count_if (p : ascii -> bool) (s : string) : nat :=
  match s with
  | EmptyString => 0
  | String c r => (if p c then 1 else 0) + count_if p r
  end.

(** Whitespace among the code points 0..255, as [str.isspace] has it. *)
Definition is_space (c : ascii) : bool :=
  between 9 13 (code c) || between 28 32 (code c)
  || (code c =? 133)%N || (code c =? 160)%N.

Fixpoint lstrip_if (p : ascii -> bool) (s : string) : string :=
  match s with
  | EmptyString => EmptyString
  | String a r => if p a then lstrip_if p r else s
  end.

Fixpoint rstrip_if (p : ascii -> bool) (s : string) : string :=
  match s with
  | EmptyString => EmptyString
  | String a r =>
      match rstrip_if p r with
      | EmptyString => if p a then EmptyString else String a EmptyString
      | r' => String a r'
      end
  end.

(** [s.strip()] *)
Definition strip (s : string) : string :=
  rstrip_if is_space (lstrip_if is_space s).

(** [sub in s] *)
Fixpoint contains (s sub : string) : bool :=
  String.prefix sub s
  || match s with
     | EmptyString => false
     | String _ r => contains r sub
     end.

(** [s.split(sep)] for a separator that is not empty: the pieces between
    the occurrences of [sep] found from the left.  [skip] is the number
    of characters still covered by the occurrence found last. *)
Fixpoint split_from (sep : string) (skip : nat) (s : string) : list string :=
  match s with
  | EmptyString => [EmptyString]
  | String c r =>
      match skip with
      | S k => split_from sep k r
      | O =>
          if String.prefix sep s
          then EmptyString :: split_from sep (String.length sep - 1) r
          else match split_from sep 0 r with
               | [] => [String c EmptyString]
               | w :: ws => String c w :: ws
               end
      end
  end.

Definition split_str (s sep : string) : list string := split_from sep 0 s.


End Str.

(** [str(e)] for the exceptions above.  The text of a
    [UnicodeDecodeError] is abridged: Python also names the byte and its
    position. *)
Definition str_exn (e : exn) : string :=
  match e with
  | HTTPException s d => Str.of_nat (Z.to_nat s) ++ ": " ++ d
  | ValueError m => m
  | NameError n => "name '" ++ n ++ "' is not defined"
  | UnicodeDecodeError enc => "'" ++ enc ++ "' codec can't decode bytes"
  | PermissionError f => "[Errno 13] Permission denied: '" ++ f ++ "'"
  | IsADirectoryError f => "[Errno 21] Is a directory: '" ++ f ++ "'"
  | FileNotFoundError f => "[Errno 2] No such file or directory: '" ++ f ++ "'"
  | LookupError m => m
  end.

(* ================================================================== *)
(** * [count_r] (main.py) *)

Definition count_r (text : string) : nat :=
  Str.count (Str.lower text) "r".

(* ================================================================== *)
(** * The process state [os] reads, and [os.path] *)

(** What the calls below read of the process: the environment, the
    working directory and the password database ([pw_dir] is the home
    directory of the process' user, if the database has an entry). *)
Record os_state : Type := {
  environ  : gmap string string;
  getcwd   : string;
  pw_dir   : option string;
  getpwnam : string -> option string
}.

Module Posix.

Definition sep : ascii := "/"%char.

(** [\w] under [re.ASCII] *)
Definition is_word (c : ascii) : bool :=
  let n := Str.code c in
  Str.between 97 122 n || Str.between 65 90 n || Str.between 48 57 n
  || (n =? 95)%N.

Fixpoint take_while (p : ascii -> bool) (s : string) : string :=
  match s with
  | EmptyString => EmptyString
  | String c r => if p c then String c (take_while p r) else EmptyString
  end.

(** The characters before the first [c], when [s] holds a [c]. *)
Fixpoint before_first (c : ascii) (s : string) : option string :=
  match s with
  | EmptyString => None
  | String a r =>
      if Ascii.eqb a c then Some EmptyString
      else option_map (String a) (before_first c r)
  end.

(** A match of [\$(\w+|\{[^}]*\})] at the start of [s]: the variable's
    name and the length of the matched text. *)
Definition var_at (s : string) : option (string * nat) :=
  match s with
  | String "$" (String d r' as r) =>
      if is_word d then
        let name := take_while is_word r in
        Some (name, 1 + String.length name)
      else if Ascii.eqb d "{" then
        match before_first "}" r' with
        | Some name => Some (name, 3 + String.length name)
        | None => None
        end
      else None
  | _ => None
  end.

(** The loop of [expandvars].  [n] characters of [s] belong to the match
    found last: they are dropped when its variable was replaced
    ([keep = false]) and copied when it is undefined ([keep = true]);
    the search resumes after them. *)
Fixpoint expand_from (env : gmap string string) (keep : bool) (n : nat)
    (s : string) : string :=
  match s with
  | EmptyString => EmptyString
  | String c r =>
      match n with
      | S k =>
          if keep then String c (expand_from env keep k r)
          else expand_from env keep k r
      | O =>
          match var_at s with
          | Some (name, len) =>
              match env !! name with
              | Some value => value ++ expand_from env false (len - 1) r
              | None => String c (expand_from env true (len - 1) r)
              end
          | None => String c (expand_from env false 0 r)
          end
      end
  end.

(** [os.path.expandvars] *)
Definition expandvars (os : os_state) (path : string) : string :=
  expand_from (environ os) false 0 path.

(** [os.path.isabs] *)
Definition isabs (s : string) : bool := Str.startswith s "/".

Definition endswith_sep (s : string) : bool :=
  match String.get (String.length s - 1) s with
  | Some c => Ascii.eqb c sep
  | None => false
  end.

(** [os.path.join(a, b)] *)
Definition join (a b : string) : string :=
  if Str.startswith b "/" then b
  else if (String.eqb a "" || endswith_sep a)%bool then a ++ b
  else a ++ "/" ++ b.

(** One round of the loop of [normpath] over the components. *)
Definition norm_step (initial_slashes : nat) (new_comps : list string)
    (comp : string) : list string :=
  if (String.eqb comp "" || String.eqb comp ".")%bool then new_comps
  else if (negb (String.eqb comp "..")
           || ((initial_slashes =? 0)%nat && (length new_comps =? 0)%nat)
           || (negb (length new_comps =? 0)%nat
               && String.eqb (List.last new_comps "") ".."))%bool
       then (new_comps ++ [comp])%list
  else if negb (length new_comps =? 0)%nat then removelast new_comps
  else new_comps.

(** The value of [initial_slashes] in [normpath]: POSIX keeps two leading
    slashes apart from one, and reads three or more as one. *)
Definition initial_slashes (path : string) : nat :=
  if Str.startswith path "/" then
    if (Str.startswith path "//" && negb (Str.startswith path "///"))%bool
    then 2%nat else 1%nat
  else 0%nat.

(** [os.path.normpath] *)
Definition normpath (path : string) : string :=
  if String.eqb path "" then "."
  else
    let initial_slashes := initial_slashes path in
    let comps := fold_left (norm_step initial_slashes) (Str.split sep path) [] in
    let path := Str.join "/" comps in
    let path := Str.times "/" initial_slashes ++ path in
    if String.eqb path "" then "." else path.

(** [os.path.abspath] *)
Definition abspath (os : os_state) (path : string) : string :=
  let path := if negb (isabs path) then join (getcwd os) path else path in
  normpath path.

(** [s] from its first [/] on; empty when it has none. *)
Fixpoint from_first_sep (s : string) : string :=
  match s with
  | EmptyString => EmptyString
  | String c r => if Ascii.eqb c sep then s else from_first_sep r
  end.

(** [os.path.expanduser] *)
Definition expanduser (os : os_state) (path : string) : string :=
  match path with
  | String "~" rest =>
      let name := take_while (fun c => negb (Ascii.eqb c sep)) rest in
      let userhome :=
        if String.eqb name "" then
          match environ os !! "HOME" with
          | Some h => Some h
          | None => pw_dir os
          end
        else getpwnam os name in
      match userhome with
      | None => path
      | Some userhome =>
          let r := Str.rstrip sep userhome ++ from_first_sep rest in
          if String.eqb r "" then "/" else r
      end
  | _ => path
  end.

End Posix.

(* ================================================================== *)
(** * Text codecs *)

(** Decoded text: a sequence of code points. *)
Definition text : Type := list N.

Module Codec.

Definition of_string (s : string) : text :=
  List.map Str.code (list_ascii_of_string s).

Definition byte_val (b : byte) : N := Byte.to_N b.

Definition is_cont (b : N) : bool := Str.between 128 191 b.

(** The low six bits of a continuation byte. *)
Definition low6 (b : N) : N := (b - 128)%N.

(** Strict UTF-8: shortest forms only, no surrogates, at most U+10FFFF. *)
Fixpoint utf8 (bs : list N) : option text :=
  match bs with
  | [] => Some []
  | b0 :: r0 =>
      if (b0 <? 128)%N then option_map (cons b0) (utf8 r0)
      else if Str.between 194 223 b0 then
        match r0 with
        | b1 :: r1 =>
            if is_cont b1
            then option_map (cons ((b0 - 192) * 64 + low6 b1)%N) (utf8 r1)
            else None
        | _ => None
        end
      else if Str.between 224 239 b0 then
        match r0 with
        | b1 :: b2 :: r2 =>
            if (Str.between (if (b0 =? 224)%N then 160 else 128)
                            (if (b0 =? 237)%N then 159 else 191) b1
                && is_cont b2)%bool
            then option_map
                   (cons ((b0 - 224) * 4096 + low6 b1 * 64 + low6 b2)%N)
                   (utf8 r2)
            else None
        | _ => None
        end
      else if Str.between 240 244 b0 then
        match r0 with
        | b1 :: b2 :: b3 :: r3 =>
            if (Str.between (if (b0 =? 240)%N then 144 else 128)
                            (if (b0 =? 244)%N then 143 else 191) b1
                && is_cont b2 && is_cont b3)%bool
            then option_map
                   (cons ((b0 - 240) * 262144 + low6 b1 * 4096
                          + low6 b2 * 64 + low6 b3)%N)
                   (utf8 r3)
            else None
        | _ => None
        end
      else None
  end.

(** ISO 8859-1: every byte is the code point of the same value. *)
Definition latin_1 (bs : list N) : option text := Some bs.

(** The code points of windows-1252 for the bytes 0x80..0x9F; five of
    them are not assigned. *)
Definition cp1252_high : list (option N) :=
  [ Some 8364; None;      Some 8218; Some 402;  Some 8222; Some 8230;
    Some 8224; Some 8225; Some 710;  Some 8240; Some 352;  Some 8249;
    Some 338;  None;      Some 381;  None;      None;      Some 8216;
    Some 8217; Some 8220; Some 8221; Some 8226; Some 8211; Some 8212;
    Some 732;  Some 8482; Some 353;  Some 8250; Some 339;  None;
    Some 382;  Some 376 ]%N.

Definition cp1252_char (b : N) : option N :=
  if Str.between 128 159 b
  then List.nth (N.to_nat (b - 128)) cp1252_high None
  else Some b.

Fixpoint cp1252 (bs : list N) : option text :=
  match bs with
  | [] => Some []
  | b :: r =>
      match cp1252_char b, cp1252 r with
      | Some c, Some t => Some (c :: t)
      | _, _ => None
      end
  end.

(** The codec registered under a name the code uses. *)
Definition lookup (encoding : string) : option (list N -> option text) :=
  if String.eqb encoding "utf-8" then Some utf8
  else if String.eqb encoding "latin-1" then Some latin_1
  else if String.eqb encoding "cp1252" then Some cp1252
  else None.

(** Text mode with the default [newline=None]: on reading, [\r\n] and a
    lone [\r] become [\n]. *)
Fixpoint universal_newlines (t : text) : text :=
  match t with
  | [] => []
  | c :: r =>
      if (c =? 13)%N then
        match r with
        | d :: r' =>
            if (d =? 10)%N then 10%N :: universal_newlines r'
            else 10%N :: universal_newlines r
        | [] => [10%N]
        end
      else c :: universal_newlines r
  end.

End Codec.

(* ================================================================== *)
(** * The file system *)

(** What a path resolves to: [stat] follows symbolic links, so a link is
    the node it leads to and a dangling one is absent. *)
Inductive node : Type :=
| RegularFile (readable : bool) (data : list byte)
| Directory
| Special (stream : list byte).

Module Fs.

(** [os.path.exists] *)
Definition exists_ (fs : gmap string node) (path : string) : bool :=
  match fs !! path with
  | Some _ => true
  | None => false
  end.

(** [os.path.isfile] *)
Definition isfile (fs : gmap string node) (path : string) : bool :=
  match fs !! path with
  | Some (RegularFile _ _) => true
  | _ => false
  end.

(** The bytes [open(path, 'r')] then [read()] consume. *)
Definition read_bytes (fs : gmap string node) (path : string)
    : result (list byte) :=
  match fs !! path with
  | None => Raise (FileNotFoundError path)
  | Some Directory => Raise (IsADirectoryError path)
  | Some (RegularFile false _) => Raise (PermissionError path)
  | Some (RegularFile true data) => Ok data
  | Some (Special stream) => Ok stream
  end.

(** [with open(path, 'r', encoding=encoding) as file: file.read()]: the
    file is opened, then the codec is looked up, then the bytes are
    decoded. *)
Definition read_text (fs : gmap string node) (path encoding : string)
    : result text :=
  let* data := read_bytes fs path in
  match Codec.lookup encoding with
  | None => Raise (LookupError ("unknown encoding: " ++ encoding))
  | Some decode =>
      match decode (List.map Codec.byte_val data) with
      | Some t => Ok (Codec.universal_newlines t)
      | None => Raise (UnicodeDecodeError encoding)
      end
  end.

End Fs.

(* ================================================================== *)
(** * main.py *)

(** The names of the module's namespace that [read_file] looks up when it
    runs.  [is_path_allowed] is [None] when the name is bound nowhere:
    calling it then raises [NameError]. *)
Record globals : Type := {
  is_path_allowed   : option (string -> bool);
  ALLOWED_BASE_DIRS : list string
}.

(** main.py as it stands: it defines and imports no [is_path_allowed].
    [base_dirs] is the list [ALLOWED_BASE_DIRS] that pathlib built from
    [Path.home()] when the module was imported. *)
Definition main_py (base_dirs : list string) : globals :=
  {| is_path_allowed := None; ALLOWED_BASE_DIRS := base_dirs |}.

Definition nl : string := String (ascii_of_nat 10) EmptyString.

(** The list [allowed_dirs] built inside [normalize_path]. *)
Definition allowed_dirs (os : os_state) : list string :=
  [ Posix.expanduser os "~/Documents";
    Posix.expanduser os "~/Downloads";
    Posix.expanduser os "~/Desktop";
    Posix.expanduser os "~/github" ].

(** The path [normalize_path] tests: variables expanded, made absolute
    when it is not, normalized. *)
Definition normalized (os : os_state) (file_path : string) : string :=
  let file_path := Posix.expandvars os file_path in
  let file_path :=
    if negb (Posix.isabs file_path) then Posix.abspath os file_path
    else file_path in
  Posix.normpath file_path.

Definition access_denied : exn :=
  HTTPException 403
    "File must be in Documents, Downloads, Desktop, or github directory".

Definition normalize_path (os : os_state) (file_path : string) : result string :=
  let file_path := normalized os file_path in
  if negb (existsb (fun d => Str.startswith file_path d) (allowed_dirs os))
  then Raise access_denied
  else Ok file_path.

Definition encodings : list string := ["utf-8"; "latin-1"; "cp1252"].

Definition undecodable (file_path : string) : exn :=
  HTTPException 400
    ("Could not read file " ++ file_path
     ++ " with any of the supported encodings").

(** The loop over the encodings, and the [raise] after it. *)
Fixpoint try_encodings (fs : gmap string node) (abs_path file_path : string)
    (encs : list string) : result text :=
  match encs with
  | [] => Raise (undecodable file_path)
  | encoding :: rest =>
      match Fs.read_text fs abs_path encoding with
      | Ok content => Ok content
      | Raise (UnicodeDecodeError _) => try_encodings fs abs_path file_path rest
      | Raise e => Raise e
      end
  end.

Definition not_allowed (g : globals) (file_path : string) : exn :=
  HTTPException 403
    ("Access to " ++ file_path
     ++ " is not allowed. File must be in one of these directories:" ++ nl
     ++ Str.join nl (ALLOWED_BASE_DIRS g)).

Definition not_found (file_path : string) : exn :=
  HTTPException 404
    ("File not found: " ++ file_path ++ nl ++ "Please check:" ++ nl
     ++ "1. The file exists" ++ nl ++ "2. The path is correct" ++ nl
     ++ "3. You have permission to access it").

Definition not_a_file (file_path : string) : exn :=
  HTTPException 400 ("Path is not a file: " ++ file_path).

(** The call [is_path_allowed(abs_path)]. *)
Definition call_is_path_allowed (g : globals) (abs_path : string) : result bool :=
  match is_path_allowed g with
  | None => Raise (NameError "is_path_allowed")
  | Some f => Ok (f abs_path)
  end.

(** The body of the [try] of [read_file] from the second statement on;
    [file_path] is the normalized path. *)
Definition read_normalized (g : globals) (os : os_state) (fs : gmap string node)
    (file_path : string) : result text :=
  let abs_path := Posix.abspath os file_path in
  let* allowed := call_is_path_allowed g abs_path in
  if negb allowed then Raise (not_allowed g file_path)
  else if negb (Fs.exists_ fs abs_path) then Raise (not_found file_path)
  else if negb (Fs.isfile fs abs_path) then Raise (not_a_file file_path)
  else try_encodings fs abs_path file_path encodings.

(** The two [except] clauses of [read_file]; [file_path] is the value of
    the local variable when the exception was raised. *)
Definition read_file_except {A : Type} (file_path : string) (e : exn) : result A :=
  match e with
  | HTTPException _ _ => Raise e
  | _ => Raise (HTTPException 500
                  ("Error reading file " ++ file_path ++ ": " ++ str_exn e))
  end.

Definition read_file (g : globals) (os : os_state) (fs : gmap string node)
    (file_path : string) : result text :=
  match normalize_path os file_path with
  | Raise e => read_file_except file_path e
  | Ok file_path =>
      match read_normalized g os fs file_path with
      | Raise e => read_file_except file_path e
      | Ok content => Ok content
      end
  end.

Record AgentResponse : Type := {
  response : text;
  metadata : list (string * string)
}.

Definition missing_parameter (name : string) : exn :=
  HTTPException 400 (name ++ " parameter is required").

(** The body of the [try] of [execute_tool].  The value of [dict.get] is
    falsy when the key is absent ([None]) and when it is the empty
    string. *)
Definition execute_tool_try (g : globals) (os : os_state) (fs : gmap string node)
    (tool_name : string) (parameters : gmap string string)
    : result AgentResponse :=
  if String.eqb tool_name "read_file" then
    match parameters !! "file_path" with
    | None => Raise (missing_parameter "file_path")
    | Some file_path =>
        if String.eqb file_path "" then Raise (missing_parameter "file_path")
        else
          let* result := read_file g os fs file_path in
          Ok {| response := result;
                metadata := [("status", "success"); ("tool", "read_file")] |}
    end
  else if String.eqb tool_name "count_r" then
    match parameters !! "text" with
    | None => Raise (missing_parameter "text")
    | Some text =>
        if String.eqb text "" then Raise (missing_parameter "text")
        else
          let count := count_r text in
          Ok {| response := Codec.of_string (Str.of_nat count);
                metadata := [("status", "success"); ("tool", "count_r")] |}
    end
  else Raise (HTTPException 404 ("Tool not found: " ++ tool_name)).

Definition execute_tool (g : globals) (os : os_state) (fs : gmap string node)
    (tool_name : string) (parameters : gmap string string)
    : result AgentResponse :=
  match execute_tool_try g os fs tool_name parameters with
  | Ok r => Ok r
  | Raise (HTTPException status detail) => Raise (HTTPException status detail)
  | Raise e => Raise (HTTPException 500 (str_exn e))
  end.

(** One entry of the answer of [list_tools]: the tool's name, its
    description, and its parameters with their type and description. *)
Record tool : Type := {
  tool_name : string;
  tool_description : string;
  tool_parameters : list (string * (string * string))
}.

Definition list_tools : list tool :=
  [ {| tool_name := "read_file";
       tool_description :=
         "Read the content of a file. Files must be in Documents, Downloads, Desktop, or github folders.";
       tool_parameters :=
         [("file_path", ("string", "Path to the file to read"))] |};
    {| tool_name := "count_r";
       tool_description := "Count the number of 'r' characters in a string";
       tool_parameters :=
         [("text", ("string", "Text to count 'r' characters in"))] |} ].

(** [parts[1]]; [IndexError] is a [LookupError]. *)
Definition second (parts : list string) : result string :=
  match nth_error parts 1 with
  | Some part => Ok part
  | None => Raise (LookupError "list index out of range")
  end.

(** The body of the [try] of [process_request]. *)
Definition process_request_try (g : globals) (os : os_state)
    (fs : gmap string node) (prompt : string) : result AgentResponse :=
  if Str.contains (Str.lower prompt) "read_file" then
    let* part := second (Str.split_str prompt "read_file") in
    let file_path := Str.strip part in
    let* result := read_file g os fs file_path in
    Ok {| response := result;
          metadata := [("status", "success"); ("tool", "read_file")] |}
  else if Str.contains (Str.lower prompt) "count_r" then
    let* part := second (Str.split_str prompt "count_r") in
    let text := Str.strip part in
    let count := count_r text in
    Ok {| response :=
            Codec.of_string ("Number of 'r' characters: " ++ Str.of_nat count);
          metadata := [("status", "success"); ("tool", "count_r")] |}
  else
    Ok {| response :=
            Codec.of_string
              "Invalid tool request. Available tools: read_file, count_r";
          metadata := [("status", "error"); ("error", "invalid_tool")] |}.

(** [process_request]: its one [except] clause catches every exception,
    an [HTTPException] too. *)
Definition process_request (g : globals) (os : os_state)
    (fs : gmap string node) (prompt : string) : result AgentResponse :=
  match process_request_try g os fs prompt with
  | Ok r => Ok r
  | Raise e => Raise (HTTPException 500 (str_exn e))
  end.

(** The loop of the [__main__] block: [attempts] tries from [port] on,
    one port after the other; [None] is [sys.exit(1)].  [in_use] is what
    [is_port_in_use] finds. *)
Fixpoint find_port (in_use : Z -> bool) (attempts : nat) (port : Z) : option Z :=
  match attempts with
  | O => None
  | S k =>
      if negb (in_use port) then Some port
      else find_port in_use k (port + 1)
  end.

(** The port the server is started on. *)
Definition server_port (in_use : Z -> bool) : option Z :=
  find_port in_use 5 8081.

(* ================================================================== *)
(** * agent.py *)

Module MCPAgent.

(** The instance, and [openai.api_key] after the constructor ran. *)
Record t : Type := {
  api_key : string;
  openai_api_key : string
}.

Definition not_set : exn :=
  ValueError "OPENAI_API_KEY environment variable not set".

(** [os.getenv] is [None] for a name the environment does not hold;
    [not self.api_key] is true for [None] and for the empty string. *)
Definition __init__ (os : os_state) : result t :=
  match environ os !! "OPENAI_API_KEY" with
  | None => Raise not_set
  | Some key =>
      if String.eqb key "" then Raise not_set
      else Ok {| api_key := key; openai_api_key := key |}
  end.

(** One message of the chat request. *)
Record message : Type := {
  role : string;
  content : string
}.

Section Process.

(** The values of the [parameters] dict are not looked into; the two
    defaults are the literals [0.7] and [1000]. *)
Variable value : Type.
Variable default_temperature default_max_tokens : value.

(** The keyword arguments of [openai.ChatCompletion.acreate]. *)
Record completion : Type := {
  model : string;
  messages : list message;
  temperature : value;
  max_tokens : value
}.

(** [parameters.get(key, default) if parameters else default]: [None]
    and the empty dict are falsy. *)
Definition parameter (parameters : option (gmap string value)) (key : string)
    (default : value) : value :=
  match parameters with
  | None => default
  | Some d =>
      if decide (d = ∅) then default
      else match d !! key with
           | Some v => v
           | None => default
           end
  end.

(** The request [process] sends: [if context:] is false for [None] and
    for the empty list. *)
Definition request (prompt : string) (context : option (list string))
    (parameters : option (gmap string value)) : completion :=
  let messages :=
    match context with
    | None | Some [] => []
    | Some ctxs =>
        List.map (fun ctx => {| role := "system"; content := ctx |}) ctxs
    end in
  let messages := (messages ++ [{| role := "user"; content := prompt |}])%list in
  {| model := "gpt-3.5-turbo";
     messages := messages;
     temperature := parameter parameters "temperature" default_temperature;
     max_tokens := parameter parameters "max_tokens" default_max_tokens |}.

(** [process]: [acreate] is the remote call, which answers with the
    contents of the choices or raises an exception with the text given;
    whatever is raised inside the [try] is raised again as an
    [Exception] whose text is returned here on the left. *)
Definition process
    (acreate : completion -> string + list string)
    (prompt : string) (context : option (list string))
    (parameters : option (gmap string value)) : string + string :=
  match acreate (request prompt context parameters) with
  | inl e => inl ("Error processing request: " ++ e)
  | inr [] => inl ("Error processing request: " ++ "list index out of range")
  | inr (first :: _) => inr first
  end.

End Process.

End MCPAgent.

(* ================================================================== *)
(** * Predicates and states the statements use *)

(** A component without a separator. *)
Fixpoint sep_free (s : string) : Prop :=
  match s with
  | EmptyString => True
  | String c r => Ascii.eqb c Posix.sep = false /\ sep_free r
  end.

(** A component [normpath] keeps: not empty, not [.], without separator. *)
Definition plain (c : string) : Prop :=
  c <> "" /\ c <> "." /\ sep_free c.

(** The component lists [normpath] produces under [k] initial slashes:
    plain components, and [..] only at the front of a relative path. *)
Definition normal (k : nat) (l : list string) : Prop :=
  Forall plain l
  /\ forall l1 l2, l = (l1 ++ ".." :: l2)%list -> k = 0 /\ Forall (eq "..") l1.

(** The detail of the 500 answer when [is_path_allowed] is unbound. *)
Definition name_error_detail (q : string) : string :=
  "Error reading file " ++ q ++ ": name 'is_path_allowed' is not defined".

(** A process with [HOME=/home/u], and a file system with one text file
    in its Documents directory. *)
Definition os_example : os_state :=
  {| environ := <["HOME" := "/home/u"]> ∅;
     getcwd := "/srv/app";
     pw_dir := None;
     getpwnam := fun _ => None |}.

Definition fs_example : gmap string node :=
  <["/home/u/Documents/notes.txt" := RegularFile true (list_byte_of_string "plain text")]>
    (<["/home/u/Documents" := Directory]> ∅).

(** The containment the spec asks of the prefix test: [path] is [d] or
    lies below it, with a separator at the boundary. *)
Definition within (d path : string) : bool :=
  (String.eqb path d || Str.startswith path (d ++ "/"))%bool.

(** A module like main.py in which [is_path_allowed] is bound to [f]. *)
Definition bound_globals (f : string -> bool) : globals :=
  {| is_path_allowed := Some f; ALLOWED_BASE_DIRS := [] |}.

(** Two environments of the agent: the credential empty, and set. *)
Definition os_empty_key : os_state :=
  {| environ := <["OPENAI_API_KEY" := ""]> ∅;
     getcwd := "/srv/app";
     pw_dir := None;
     getpwnam := fun _ => None |}.

Definition os_with_key : os_state :=
  {| environ := <["OPENAI_API_KEY" := "sk-test"]> ∅;
     getcwd := "/srv/app";
     pw_dir := None;
     getpwnam := fun _ => None |}.

(** A process without environment variables. *)
Definition os_no_env : os_state :=
  {| environ := ∅;
     getcwd := "/srv/app";
     pw_dir := Some "/home/u";
     getpwnam := fun _ => None |}.

(** A file system with a file that is not UTF-8: [caf] and the byte E9,
    then a line end of two bytes. *)
Definition fs_legacy : gmap string node :=
  <["/home/u/Documents/legacy.txt" :=
      RegularFile true [x63; x61; x66; xe9; x0d; x0a]%byte]> ∅.

(* ================================================================== *)
(** * Properties of the character counter *)

Import Str (count_if).

Example count_r_trial : count_r "Rear mirror, CARRIER" = 8.
Proof. reflexivity. Qed.

Lemma prefix_empty (s : string) : String.prefix EmptyString s = true.
Proof. destruct s; reflexivity. Qed.

Lemma prefix_single (c a : ascii) (r : string) :
  String.prefix (String c EmptyString) (String a r) = Ascii.eqb a c.
Proof.
  simpl. destruct (ascii_dec c a) as [->|Hne].
  - rewrite prefix_empty, Ascii.eqb_refl. reflexivity.
  - symmetry. apply Ascii.eqb_neq. congruence.
Qed.

Lemma count_single (c : ascii) (s : string) :
  Str.count s (String c EmptyString) = count_if (fun a => Ascii.eqb a c) s.
Proof.
  unfold Str.count. induction s as [|a r IH].
  - reflexivity.
  - cbn [Str.count_from count_if]. rewrite prefix_single.
    cbn [String.length Nat.sub]. rewrite IH.
    destruct (Ascii.eqb a c); reflexivity.
Qed.

Lemma count_if_lower (p : ascii -> bool) (s : string) :
  count_if p (Str.lower s) = count_if (fun c => p (Str.lower_char c)) s.
Proof. induction s as [|a r IH]; cbn; [reflexivity | now rewrite IH]. Qed.

Lemma count_if_app (p : ascii -> bool) (a b : string) :
  count_if p (a ++ b) = count_if p a + count_if p b.
Proof. induction a as [|c r IH]; simpl; [reflexivity | rewrite IH; lia]. Qed.

Lemma count_if_le (p : ascii -> bool) (s : string) :
  count_if p s <= String.length s.
Proof. induction s as [|c r IH]; cbn; [lia | destruct (p c); lia]. Qed.

Lemma count_if_ext (p q : ascii -> bool) (s : string) :
  (forall c, p c = q c) -> count_if p s = count_if q s.
Proof. intros E. induction s as [|c r IH]; cbn; [reflexivity | now rewrite E, IH]. Qed.

Lemma filter_seq_shift (f : nat -> bool) (a n : nat) :
  length (List.filter f (seq (S a) n))
  = length (List.filter (fun i => f (S i)) (seq a n)).
Proof.
  revert a. induction n as [|n IH]; intros a; cbn; [reflexivity|].
  destruct (f (S a)); cbn; now rewrite IH.
Qed.

Lemma positions_count (c : ascii) (s : string) :
  length (Str.positions_holding c s) = count_if (fun a => Ascii.eqb a c) s.
Proof.
  unfold Str.positions_holding. induction s as [|a r IH].
  - reflexivity.
  - cbn [String.length seq List.filter String.get count_if].
    destruct (Ascii.eqb a c); cbn [length];
      rewrite filter_seq_shift; cbn [String.get]; rewrite IH; reflexivity.
Qed.

Lemma count_r_count_if (text : string) :
  count_r text = count_if (fun c => Ascii.eqb (Str.lower_char c) "r") text.
Proof. unfold count_r. now rewrite count_single, count_if_lower. Qed.

Lemma lower_char_r (c : ascii) :
  Ascii.eqb (Str.lower_char c) "r" = (Ascii.eqb c "r" || Ascii.eqb c "R")%bool.
Proof.
  destruct c as [[] [] [] [] [] [] [] []]; vm_compute; reflexivity.
Qed.


Lemma count_if_either (c d : ascii) (s : string) :
  c <> d ->
  count_if (fun a => Ascii.eqb a c || Ascii.eqb a d)%bool s
  = count_if (fun a => Ascii.eqb a c) s + count_if (fun a => Ascii.eqb a d) s.
Proof.
  intros Hne. induction s as [|a r IH]; simpl; [reflexivity|].
  rewrite IH. destruct (Ascii.eqb_spec a c) as [->|], (Ascii.eqb_spec c d);
  simpl; try congruence; try lia.
Qed.

(** C7: the counter is case-insensitive and counts the target character
  after lowercasing: [count_r "River" = 2], [count_r "" = 0],
  [count_r "RRrr" = 4]; for every text the result is the number of
  positions of the lowercased text that hold [r], which is the number of
  positions of the text itself that hold [r] or [R]. *)
Theorem count_r_counts_lowercased :
  count_r "River" = 2 /\ count_r "" = 0 /\ count_r "RRrr" = 4
  /\ (forall text : string,
      count_r text = length (Str.positions_holding "r" (Str.lower text)))
  /\ (forall text : string,
      count_r text = length (Str.positions_holding "r" text)
                     + length (Str.positions_holding "R" text)).
Proof.
  repeat split; try reflexivity; intros text.
  - unfold count_r. now rewrite count_single, positions_count.
  - rewrite count_r_count_if, !positions_count.
  rewrite (count_if_ext _ _ text (fun c => lower_char_r c)).
  apply count_if_either. discriminate.
Qed.

(** C10: the counter maps concatenation to addition, and the empty text
  to zero; so it never exceeds the length of its text. *)
Theorem count_r_monoid_hom :
  count_r "" = 0
  /\ (forall a b : string, count_r (a ++ b) = count_r a + count_r b)
  /\ (forall t : string, count_r t <= String.length t).
Proof.
  split; [reflexivity|]. split.
  - intros a b. rewrite !count_r_count_if. apply count_if_app.
  - intros t. rewrite count_r_count_if. apply count_if_le.
Qed.

(* ================================================================== *)
(** * [normpath] is idempotent *)

Lemma split_sep_free (s : string) : Forall sep_free (Str.split Posix.sep s).
Proof.
  induction s as [|c r IH]; cbn [Str.split].
  - repeat constructor.
  - destruct (Ascii.eqb c Posix.sep) eqn:E.
    + constructor; [exact I | exact IH].
    + destruct (Str.split Posix.sep r) as [|w ws].
      * repeat constructor. exact E.
      * inversion IH; subst. constructor; [split; assumption | assumption].
Qed.

Lemma split_single (c : string) : sep_free c -> Str.split Posix.sep c = [c].
Proof.
  induction c as [|a r IH]; [reflexivity|].
  intros [Ha Hr]. cbn [Str.split]. rewrite Ha, (IH Hr). reflexivity.
Qed.

Lemma split_app (c r : string) :
  sep_free c ->
  Str.split Posix.sep (c ++ String Posix.sep r) = c :: Str.split Posix.sep r.
Proof.
  induction c as [|a c' IH]; [reflexivity|].
  intros [Ha Hc]. simpl. rewrite Ha, (IH Hc). reflexivity.
Qed.

Lemma plain_sep_free (c : string) : plain c -> sep_free c.
Proof. now intros (_ & _ & H). Qed.

Lemma split_join (cs : list string) :
  Forall plain cs -> cs <> [] ->
  Str.split Posix.sep (Str.join "/" cs) = cs.
Proof.
  unfold Str.join. induction cs as [|c r IH]; [congruence|].
  intros H _. inversion H as [|? ? Hc Hr]; subst.
  destruct r as [|c2 r'].
  - apply split_single, plain_sep_free, Hc.
  - cbn [String.concat]. change ("/" ++ ?x) with (String Posix.sep x).
    rewrite split_app by (apply plain_sep_free, Hc).
    f_equal. apply IH; [assumption | discriminate].
Qed.

Lemma norm_step_skip (k : nat) (acc : list string) (c : string) :
  c = "" \/ c = "." -> Posix.norm_step k acc c = acc.
Proof. intros [-> | ->]; reflexivity. Qed.

Lemma norm_step_push (k : nat) (acc : list string) (c : string) :
  c <> "" -> c <> "." -> c <> ".." ->
  Posix.norm_step k acc c = (acc ++ [c])%list.
Proof.
  intros H1 H2 H3. unfold Posix.norm_step.
  apply String.eqb_neq in H1, H2, H3. rewrite H1, H2, H3. reflexivity.
Qed.

Lemma norm_step_dotdot_nil (k : nat) :
  Posix.norm_step k [] ".." = if (k =? 0)%nat then [".."] else [].
Proof. unfold Posix.norm_step. cbn. destruct (k =? 0)%nat; reflexivity. Qed.

Lemma length_snoc_eqb {A : Type} (l : list A) (x : A) :
  (length (l ++ [x]) =? 0)%nat = false.
Proof. rewrite length_app. cbn. apply Nat.eqb_neq. lia. Qed.

Lemma norm_step_dotdot_snoc (k : nat) (acc : list string) (x : string) :
  Posix.norm_step k (acc ++ [x]) ".."
  = if String.eqb x ".." then (acc ++ [x; ".."])%list else acc.
Proof.
  unfold Posix.norm_step. cbn [String.eqb Ascii.eqb Bool.eqb orb negb].
  rewrite length_snoc_eqb, last_last, removelast_last.
  rewrite Bool.andb_false_r. cbn [orb negb andb].
  destruct (String.eqb x ".."); [|reflexivity].
  rewrite <- app_assoc. reflexivity.
Qed.

Lemma snoc_eq_app_cons {A : Type} (l l1 l2 : list A) (c d : A) :
  (l ++ [c] = l1 ++ d :: l2)%list ->
  (l2 = [] /\ l = l1 /\ c = d)
  \/ exists l2', l2 = (l2' ++ [c])%list /\ l = (l1 ++ d :: l2')%list.
Proof.
  destruct l2 as [|y l2' _] using rev_ind; intros H.
  - apply app_inj_tail in H as [-> ->]. left. repeat split.
  - right. exists l2'.
    change (l1 ++ d :: l2' ++ [y])%list with (l1 ++ (d :: l2') ++ [y])%list in H.
    rewrite app_assoc in H. apply app_inj_tail in H as [-> ->]. split; reflexivity.
Qed.

Lemma normal_nil (k : nat) : normal k [].
Proof.
  split; [constructor|]. intros l1 l2 H. now destruct l1.
Qed.

Lemma normal_snoc_plain (k : nat) (l : list string) (c : string) :
  normal k l -> plain c -> c <> ".." -> normal k (l ++ [c]).
Proof.
  intros [Hp Hd] Hc Hne. split.
  - apply Forall_app. split; [assumption | constructor; [assumption | constructor]].
  - intros l1 l2 [(_ & _ & ->) | (l2' & _ & ->)]%snoc_eq_app_cons.
    + congruence.
    + exact (Hd l1 l2' eq_refl).
Qed.

Lemma normal_init (k : nat) (l : list string) (x : string) :
  normal k (l ++ [x]) -> normal k l.
Proof.
  intros [Hp Hd]. split.
  - apply Forall_app in Hp. tauto.
  - intros l1 l2 ->. apply (Hd l1 (l2 ++ [x])%list). now rewrite <- app_assoc.
Qed.

Lemma plain_dotdot : plain "..".
Proof. repeat split; discriminate. Qed.

Lemma normal_snoc_dotdot (l : list string) :
  normal 0 (l ++ [".."]) -> normal 0 (l ++ [".."; ".."]).
Proof.
  intros [Hp Hd].
  destruct (Hd l [] eq_refl) as [_ Hall].
  split.
  - change (l ++ [".."; ".."])%list with (l ++ [".."] ++ [".."])%list.
    rewrite app_assoc. apply Forall_app. split; [assumption|].
    constructor; [apply plain_dotdot | constructor].
  - intros l1 l2 H. split; [reflexivity|].
    change (l ++ [".."; ".."])%list with (l ++ [".."] ++ [".."])%list in H.
    rewrite app_assoc in H.
    apply snoc_eq_app_cons in H as [(_ & <- & _) | (l2' & _ & H)].
    + apply Forall_app. split; [assumption | constructor; [reflexivity | constructor]].
    + apply (Hd l1 l2' H).
Qed.

Lemma normal_dotdot : normal 0 [".."].
Proof.
  split; [constructor; [apply plain_dotdot | constructor]|].
  intros l1 l2 H. split; [reflexivity|].
  destruct l1 as [|x l1']; [constructor|].
  injection H as _ H. now destruct l1'.
Qed.

Lemma norm_step_normal (k : nat) (acc : list string) (c : string) :
  normal k acc -> sep_free c -> normal k (Posix.norm_step k acc c).
Proof.
  intros Hacc Hc.
  destruct (String.eqb_spec c "") as [->|H1]; [assumption|].
  destruct (String.eqb_spec c ".") as [->|H2]; [assumption|].
  destruct (String.eqb_spec c "..") as [->|H3].
  - destruct acc as [|x acc' _] using rev_ind.
    + rewrite norm_step_dotdot_nil. destruct (Nat.eqb_spec k 0) as [->|Hk].
      * apply normal_dotdot.
      * apply normal_nil.
    + rewrite norm_step_dotdot_snoc.
      destruct (String.eqb_spec x "..") as [->|Hx].
      * destruct Hacc as [Hp Hd]. destruct (Hd acc' [] eq_refl) as [-> _].
        apply normal_snoc_dotdot. split; assumption.
      * apply (normal_init k acc' x Hacc).
  - rewrite norm_step_push by assumption.
    apply normal_snoc_plain; [assumption | repeat split; assumption | assumption].
Qed.

Lemma fold_norm_step_normal (k : nat) (cs acc : list string) :
  normal k acc -> Forall sep_free cs ->
  normal k (fold_left (Posix.norm_step k) cs acc).
Proof.
  revert acc. induction cs as [|c cs IH]; intros acc Hacc Hcs; [assumption|].
  inversion Hcs; subst. cbn [fold_left].
  apply IH; [apply norm_step_normal; assumption | assumption].
Qed.

(** Normal components pass the loop unchanged. *)
Lemma fold_norm_step_fixed (k : nat) (cs acc : list string) :
  normal k (acc ++ cs) ->
  fold_left (Posix.norm_step k) cs acc = (acc ++ cs)%list.
Proof.
  revert acc. induction cs as [|c cs IH]; intros acc H.
  - now rewrite app_nil_r.
  - cbn [fold_left].
    assert (Hstep : Posix.norm_step k acc c = (acc ++ [c])%list).
    { destruct H as [Hp Hd].
      assert (Hc : plain c).
      { apply Forall_app in Hp as [_ Hp]. now inversion Hp. }
      destruct Hc as (H1 & H2 & _).
      destruct (String.eqb_spec c "..") as [->|H3];
        [|apply norm_step_push; assumption].
      destruct (Hd acc cs eq_refl) as [-> Hall].
      destruct acc as [|x acc' _] using rev_ind; [reflexivity|].
      rewrite norm_step_dotdot_snoc.
      apply Forall_app in Hall as [_ Hx]. inversion Hx as [|? ? <- _]; subst.
      cbn. now rewrite <- app_assoc. }
    rewrite Hstep. rewrite IH; rewrite <- app_assoc; [reflexivity | exact H].
Qed.

Lemma join_head (cs : list string) :
  Forall plain cs ->
  (cs = [] /\ Str.join "/" cs = "")
  \/ exists c r, Str.join "/" cs = String c r /\ Ascii.eqb c Posix.sep = false.
Proof.
  intros H. destruct cs as [|c0 rest]; [left; split; reflexivity | right].
  inversion H as [|? ? (Hne & _ & Hfree) _]; subst.
  destruct c0 as [|a r0]; [congruence|]. destruct Hfree as [Ha _].
  unfold Str.join. cbn [String.concat].
  destruct rest; [exists a, r0 | eexists a, _]; split; try reflexivity; assumption.
Qed.

Lemma initial_slashes_le (p : string) : Posix.initial_slashes p <= 2.
Proof.
  unfold Posix.initial_slashes.
  destruct (Str.startswith p "/"); [|lia].
  destruct (_ && _)%bool; lia.
Qed.

Lemma startswith_cons (c a : ascii) (r p : string) :
  Str.startswith (String a r) (String c p)
  = (Ascii.eqb a c && Str.startswith r p)%bool.
Proof.
  unfold Str.startswith. cbn [String.prefix].
  destruct (ascii_dec c a) as [->|Hne].
  - now rewrite Ascii.eqb_refl.
  - apply not_eq_sym, Ascii.eqb_neq in Hne. now rewrite Hne.
Qed.

Lemma startswith_nil (s : string) : Str.startswith s "" = true.
Proof. apply prefix_empty. Qed.

Lemma times_sep (k : nat) (x : string) :
  k <= 2 ->
  Str.times "/" k ++ x
  = match k with
    | 0 => x
    | 1 => String "/" x
    | _ => String "/" (String "/" x)
    end.
Proof. destruct k as [|[|[|k]]]; [reflexivity.. | lia]. Qed.

Lemma initial_slashes_joined (k : nat) (cs : list string) :
  Forall plain cs -> k <= 2 ->
  Posix.initial_slashes (Str.times "/" k ++ Str.join "/" cs) = k.
Proof.
  intros H Hk. unfold Posix.initial_slashes.
  destruct (join_head cs H) as [[_ ->] | (c & r & -> & Hc)];
    rewrite (times_sep k _ Hk); destruct k as [|[|[|k]]]; try lia;
    try change Posix.sep with "/"%char in Hc;
    rewrite ?startswith_cons, ?startswith_nil, ?Hc; reflexivity.
Qed.

Lemma fold_joined (k : nat) (cs : list string) :
  normal k cs -> k <= 2 ->
  fold_left (Posix.norm_step k)
    (Str.split Posix.sep (Str.times "/" k ++ Str.join "/" cs)) []
  = cs.
Proof.
  intros Hn Hk.
  assert (Hsplit : fold_left (Posix.norm_step k)
                     (Str.split Posix.sep (Str.join "/" cs)) [] = cs).
  { destruct cs as [|c r]; [reflexivity|].
    rewrite split_join; [|apply Hn | discriminate].
    now apply (fold_norm_step_fixed k (c :: r) []). }
  rewrite (times_sep k _ Hk).
  destruct k as [|[|[|k]]]; try lia; exact Hsplit.
Qed.

Lemma normpath_joined (k : nat) (cs : list string) :
  normal k cs -> k <= 2 ->
  Str.times "/" k ++ Str.join "/" cs <> "" ->
  Posix.normpath (Str.times "/" k ++ Str.join "/" cs)
  = Str.times "/" k ++ Str.join "/" cs.
Proof.
  intros Hn Hk Hne. unfold Posix.normpath.
  apply String.eqb_neq in Hne. rewrite Hne.
  cbv zeta. rewrite (initial_slashes_joined k cs (proj1 Hn) Hk).
  rewrite (fold_joined k cs Hn Hk). rewrite Hne. reflexivity.
Qed.

(** Normalizing a normalized path changes nothing. *)
Lemma normpath_idempotent (p : string) :
  Posix.normpath (Posix.normpath p) = Posix.normpath p.
Proof.
  unfold Posix.normpath at 2 3.
  destruct (String.eqb p ""); [reflexivity|]. cbv zeta.
  set (k := Posix.initial_slashes p).
  set (cs := fold_left (Posix.norm_step k) (Str.split Posix.sep p) []).
  assert (Hn : normal k cs).
  { apply fold_norm_step_normal; [apply normal_nil | apply split_sep_free]. }
  destruct (String.eqb_spec (Str.times "/" k ++ Str.join "/" cs) "") as [_|Hne];
    [reflexivity|].
  apply normpath_joined; [assumption | apply initial_slashes_le | assumption].
Qed.

(* ================================================================== *)
(** * An allowed directory that prefixes a normalized path is normalized *)

Lemma append_cons (a : ascii) (s t : string) :
  String a s ++ t = String a (s ++ t).
Proof. reflexivity. Qed.

Lemma append_nil_l (t : string) : "" ++ t = t.
Proof. reflexivity. Qed.

Lemma append_assoc (s t u : string) : (s ++ t) ++ u = s ++ t ++ u.
Proof. induction s as [|a s IH]; [reflexivity|]. now rewrite !append_cons, IH. Qed.

Lemma startswith_app (s p : string) :
  Str.startswith s p = true -> exists t, s = p ++ t.
Proof.
  unfold Str.startswith. revert s. induction p as [|c p IH]; intros s H.
  - exists s. reflexivity.
  - destruct s as [|a s]; [discriminate|]. cbn [String.prefix] in H.
    destruct (ascii_dec c a) as [->|]; [|discriminate].
    destruct (IH s H) as [t ->]. exists t. reflexivity.
Qed.

Lemma split_nonempty (s : string) : Str.split Posix.sep s <> [].
Proof.
  destruct s as [|c r]; cbn [Str.split]; [discriminate|].
  destruct (Ascii.eqb c Posix.sep); [discriminate|].
  destruct (Str.split Posix.sep r); discriminate.
Qed.

Lemma join_cons (c : string) (cs : list string) :
  cs <> [] -> Str.join "/" (c :: cs) = c ++ String Posix.sep (Str.join "/" cs).
Proof. destruct cs; [congruence | reflexivity]. Qed.

Lemma join_split (s : string) : Str.join "/" (Str.split Posix.sep s) = s.
Proof.
  induction s as [|c r IH]; [reflexivity|]. cbn [Str.split].
  destruct (Ascii.eqb_spec c Posix.sep) as [->|Hne].
  - rewrite join_cons by apply split_nonempty. now rewrite IH.
  - pose proof (split_nonempty r) as Hr.
    destruct (Str.split Posix.sep r) as [|w ws]; [congruence|].
    destruct ws as [|w2 ws].
    + cbn in IH |- *. now rewrite IH.
    + rewrite join_cons in IH |- * by discriminate.
      rewrite append_cons. now rewrite IH.
Qed.

Lemma split_at_sep (u v : string) :
  Str.split Posix.sep (u ++ String Posix.sep v)
  = (Str.split Posix.sep u ++ Str.split Posix.sep v)%list.
Proof.
  induction u as [|a u IH]; [reflexivity|].
  rewrite append_cons. cbn [Str.split]. rewrite IH.
  destruct (Ascii.eqb a Posix.sep); [reflexivity|].
  pose proof (split_nonempty u) as Hu.
  destruct (Str.split Posix.sep u) as [|w ws]; [congruence | reflexivity].
Qed.

Lemma split_sep_free_app (w t : string) :
  sep_free w ->
  Str.split Posix.sep (w ++ t)
  = match Str.split Posix.sep t with
    | hd :: tl => (w ++ hd) :: tl
    | [] => [w]
    end.
Proof.
  induction w as [|a w IH]; intros H.
  - rewrite append_nil_l. destruct (Str.split Posix.sep t) eqn:E; [|reflexivity].
    now apply split_nonempty in E.
  - destruct H as [Ha Hw]. rewrite append_cons. cbn [Str.split].
    rewrite Ha, (IH Hw).
    destruct (Str.split Posix.sep t); reflexivity.
Qed.

Lemma join_empties (k : nat) (l : list string) :
  l <> [] ->
  Str.join "/" (repeat "" k ++ l) = Str.times "/" k ++ Str.join "/" l.
Proof.
  intros Hl. induction k as [|k IH]; [reflexivity|].
  cbn [repeat Str.times]. change (("" :: repeat "" k) ++ l)%list
    with ("" :: (repeat "" k ++ l))%list.
  rewrite join_cons, IH.
  - rewrite append_nil_l. reflexivity.
  - destruct k; [exact Hl | discriminate].
Qed.

Lemma split_joined (k : nat) (cs : list string) :
  Forall plain cs -> k <= 2 ->
  Str.split Posix.sep (Str.times "/" k ++ Str.join "/" cs)
  = (repeat "" k ++ match cs with [] => [""] | _ => cs end)%list.
Proof.
  intros H Hk.
  assert (Hs : Str.split Posix.sep (Str.join "/" cs)
               = match cs with [] => [""] | _ => cs end).
  { destruct cs; [reflexivity|]. apply split_join; [assumption | discriminate]. }
  rewrite (times_sep k _ Hk).
  destruct k as [|[|[|k]]]; try lia; cbn [Str.split Ascii.eqb Bool.eqb Posix.sep];
    rewrite Hs; reflexivity.
Qed.

Lemma normal_prefix (k : nat) (a b : list string) :
  normal k (a ++ b) -> normal k a.
Proof.
  intros [Hp Hd]. split.
  - apply Forall_app in Hp. tauto.
  - intros l1 l2 ->. apply (Hd l1 (l2 ++ b)%list). now rewrite <- app_assoc.
Qed.

Lemma app_not_empty (u : string) (c : ascii) (w : string) :
  u ++ String c w <> "".
Proof. destruct u; discriminate. Qed.

Lemma in_repeat_empty (y : string) (k : nat) : In y (repeat "" k) -> y = "".
Proof. exact (repeat_spec k "" y). Qed.

(** The components of a string that a normal path starts with, when the
    string ends in a separator and a plain component. *)
Lemma split_prefix_of_joined (k : nat) (cs : list string) (u w t : string) :
  normal k cs -> k <= 2 -> plain w ->
  Str.times "/" k ++ Str.join "/" cs = (u ++ String Posix.sep w) ++ t ->
  exists cs1, Str.split Posix.sep u = (repeat "" k ++ cs1)%list /\ normal k cs1.
Proof.
  intros Hn Hk (Hw & _ & Hfree) Heq.
  apply (f_equal (Str.split Posix.sep)) in Heq.
  rewrite (split_joined k cs (proj1 Hn) Hk) in Heq.
  rewrite append_assoc, append_cons, split_at_sep in Heq.
  rewrite (split_sep_free_app w t Hfree) in Heq.
  destruct (Str.split Posix.sep t) as [|hd tl] eqn:Et;
    [now apply split_nonempty in Et|].
  assert (Hy : w ++ hd <> "") by (destruct w; [congruence | discriminate]).
  assert (Hcs1 : exists cs1,
             Str.split Posix.sep u = (repeat "" k ++ cs1)%list
             /\ match cs with [] => [""] | _ => cs end
                = (cs1 ++ (w ++ hd)%string :: tl)%list).
  { apply app_eq_app in Heq as [l [[Hl Hr] | [Hl Hr]]].
    - destruct l as [|y l].
      + exists []. rewrite app_nil_r in Hl |- *. split; [now symmetry | now symmetry].
      + injection Hr as Hy' _. destruct Hy.
        apply (in_repeat_empty _ k). rewrite Hl, Hy'.
        apply in_or_app. right. left. reflexivity.
    - exists l. split; assumption. }
  destruct Hcs1 as (cs1 & Hu & Hcs). exists cs1. split; [exact Hu|].
  destruct cs as [|c0 cs0].
  - destruct cs1 as [|x [|x' cs1]]; [|discriminate..].
    injection Hcs as Hcs _. now destruct Hy.
  - rewrite Hcs in Hn. exact (normal_prefix k _ _ Hn).
Qed.

Lemma prefix_entry_normalized (k : nat) (cs : list string) (u w : string) :
  normal k cs -> k <= 2 -> plain w -> w <> ".." ->
  Str.startswith (Str.times "/" k ++ Str.join "/" cs) (u ++ String Posix.sep w) = true ->
  Posix.normpath (u ++ String Posix.sep w) = u ++ String Posix.sep w.
Proof.
  intros Hn Hk Hw Hdd [t Ht]%startswith_app.
  destruct (split_prefix_of_joined k cs u w t Hn Hk Hw Ht) as (cs1 & Hu & Hn1).
  assert (Hd : u ++ String Posix.sep w
               = Str.times "/" k ++ Str.join "/" (cs1 ++ [w])).
  { rewrite <- (join_split (u ++ String Posix.sep w)).
    rewrite split_at_sep, Hu, (split_single w (plain_sep_free w Hw)).
    rewrite <- app_assoc. apply join_empties. now destruct cs1. }
  rewrite Hd. apply normpath_joined.
  - apply normal_snoc_plain; assumption.
  - exact Hk.
  - rewrite <- Hd. apply app_not_empty.
Qed.

Lemma normpath_shape (y : string) :
  Posix.normpath y = "."
  \/ exists k cs, k <= 2 /\ normal k cs
       /\ Posix.normpath y = Str.times "/" k ++ Str.join "/" cs.
Proof.
  unfold Posix.normpath. destruct (String.eqb y ""); [left; reflexivity|].
  cbv zeta. set (k := Posix.initial_slashes y).
  set (cs := fold_left (Posix.norm_step k) (Str.split Posix.sep y) []).
  destruct (String.eqb _ ""); [left; reflexivity | right].
  exists k, cs. split; [apply initial_slashes_le|]. split; [|reflexivity].
  apply fold_norm_step_normal; [apply normal_nil | apply split_sep_free].
Qed.

(** [expanduser] on [~/w]: the home directory without its trailing
    slashes, then [/w]; the path itself when no home is known. *)
Lemma expanduser_home (os : os_state) (w : string) :
  exists u, Posix.expanduser os (String "~" (String Posix.sep w))
            = u ++ String Posix.sep w.
Proof.
  unfold Posix.expanduser.
  cbn [Posix.take_while Posix.from_first_sep Posix.sep Ascii.eqb Bool.eqb negb
       String.eqb].
  destruct (match environ os !! "HOME" with
            | Some h => Some h
            | None => pw_dir os
            end) as [h|].
  - exists (Str.rstrip Posix.sep h).
    destruct (String.eqb_spec (Str.rstrip Posix.sep h ++ String Posix.sep w) "")
      as [E|_]; [now apply app_not_empty in E | reflexivity].
  - exists "~". reflexivity.
Qed.

Lemma allowed_dir_shape (os : os_state) (d : string) :
  In d (allowed_dirs os) ->
  exists u w, d = u ++ String Posix.sep w /\ plain w /\ w <> "..".
Proof.
  unfold allowed_dirs.
  intros [<- | [<- | [<- | [<- | []]]]];
    match goal with
    | |- context [Posix.expanduser os (String _ (String _ ?w))] =>
        destruct (expanduser_home os w) as [u Hu]; exists u, w
    end;
    (split; [exact Hu | split; [|discriminate]]);
    repeat split; discriminate.
Qed.

Lemma dot_no_entry (u w t : string) : "." <> (u ++ String Posix.sep w) ++ t.
Proof. destruct u as [|a [|b u]]; discriminate. Qed.

(** An allowed directory that prefixes the normalized path is itself a
    fixed point of [normpath]. *)
Lemma matching_entry_normalized (os : os_state) (p d : string) :
  In d (allowed_dirs os) ->
  Str.startswith (normalized os p) d = true ->
  Posix.normpath d = d.
Proof.
  intros (u & w & -> & Hw & Hdd)%allowed_dir_shape Hpre.
  unfold normalized in Hpre.
  match type of Hpre with
  | Str.startswith (Posix.normpath ?y) _ = _ =>
      destruct (normpath_shape y) as [E | (k & cs & Hk & Hn & E)];
      rewrite E in Hpre
  end.
  - apply startswith_app in Hpre as [t Ht]. now apply dot_no_entry in Ht.
  - exact (prefix_entry_normalized k cs u w Hn Hk Hw Hdd Hpre).
Qed.

Lemma normalized_fixed (os : os_state) (p : string) :
  Posix.normpath (normalized os p) = normalized os p.
Proof. apply normpath_idempotent. Qed.

(* ================================================================== *)
(** * Properties of [normalize_path] *)

Lemma normalize_path_cases (os : os_state) (p : string) :
  normalize_path os p
  = if existsb (fun d => Str.startswith (normalized os p) d) (allowed_dirs os)
    then Ok (normalized os p) else Raise access_denied.
Proof. unfold normalize_path. destruct (existsb _ _); reflexivity. Qed.

(** C1: a path whose normalized form no allowed directory prefixes is
    rejected with the 403 error; so a path the validator returns is the
    normalized form and starts with an allowed directory, and both, the
    path and that directory, are normalized: [normpath] leaves them as
    they are. *)
Theorem normalize_path_confines (os : os_state) (p : string) :
  ((forall d, In d (allowed_dirs os) ->
      Str.startswith (normalized os p) d = false) ->
   normalize_path os p = Raise access_denied)
  /\ (forall q, normalize_path os p = Ok q ->
        q = normalized os p
        /\ Posix.normpath q = q
        /\ exists d, In d (allowed_dirs os)
             /\ Str.startswith q d = true
             /\ Posix.normpath d = d).
Proof.
  rewrite normalize_path_cases.
  destruct (existsb _ _) eqn:E; split.
  - intros H. apply existsb_exists in E as (d & Hd & Hp).
    rewrite (H d Hd) in Hp. discriminate.
  - intros q [= <-]. split; [reflexivity|].
    split; [apply normalized_fixed|].
    apply existsb_exists in E as (d & Hd & Hp).
    exists d. split; [exact Hd|]. split; [exact Hp|].
    exact (matching_entry_normalized os p d Hd Hp).
  - reflexivity.
  - discriminate.
Qed.

Lemma normalize_path_confines_witness :
  normalize_path os_example "/etc/passwd" = Raise access_denied
  /\ exists d, In d (allowed_dirs os_example)
       /\ Str.startswith "/home/u/Documents/notes.txt" d = true
       /\ Posix.normpath d = d.
Proof.
  split.
  - apply (proj1 (normalize_path_confines os_example "/etc/passwd")).
    intros d Hd. vm_compute in Hd.
    repeat (destruct Hd as [<-|Hd]; [reflexivity|]). destruct Hd.
  - apply (proj2 (normalize_path_confines os_example "$HOME/Documents/./notes.txt")
             "/home/u/Documents/notes.txt").
    reflexivity.
Defined.

(** C2: a path whose normalized form an allowed directory prefixes is
    accepted, and the value returned is that normalized form: the
    variables are expanded, a path that is not absolute is joined to the
    working directory, and the result is normalized lexically. *)
Theorem normalize_path_accepts (os : os_state) (p d : string) :
  In d (allowed_dirs os) ->
  Str.startswith (normalized os p) d = true ->
  normalize_path os p = Ok (normalized os p)
  /\ normalized os p
     = Posix.normpath
         (if Posix.isabs (Posix.expandvars os p) then Posix.expandvars os p
          else Posix.join (getcwd os) (Posix.expandvars os p)).
Proof.
  intros Hd Hp. split.
  - rewrite normalize_path_cases.
    replace (existsb _ _) with true; [reflexivity|].
    symmetry. apply existsb_exists. exists d. split; assumption.
  - unfold normalized, Posix.abspath.
    destruct (Posix.isabs (Posix.expandvars os p)); cbn [negb];
      [reflexivity | apply normpath_idempotent].
Qed.

Lemma normalize_path_accepts_witness :
  normalize_path os_example "$HOME/Documents/./notes.txt"
  = Ok "/home/u/Documents/notes.txt".
Proof.
  apply (normalize_path_accepts os_example "$HOME/Documents/./notes.txt"
           "/home/u/Documents").
  - left. reflexivity.
  - reflexivity.
Defined.

(** C3: the prefix test is a plain [startswith]: with [HOME=/home/u] the
    validator accepts a file of [/home/u/Documents2], which lies within
    no allowed directory. *)
Theorem normalize_path_accepts_sibling :
  normalize_path os_example "/home/u/Documents2/secret.txt"
  = Ok "/home/u/Documents2/secret.txt"
  /\ allowed_dirs os_example
     = ["/home/u/Documents"; "/home/u/Downloads"; "/home/u/Desktop"; "/home/u/github"]
  /\ forallb (fun d => negb (within d "/home/u/Documents2/secret.txt"))
             (allowed_dirs os_example) = true.
Proof. split; [reflexivity|]. split; reflexivity. Qed.

(* ================================================================== *)
(** * Properties of [read_file] *)

(** With [is_path_allowed] unbound, every path that passes
    [normalize_path] ends in the catch-all handler. *)
Lemma read_file_name_error (base : list string) (os : os_state)
    (fs : gmap string node) (p q : string) :
  normalize_path os p = Ok q ->
  read_file (main_py base) os fs p = Raise (HTTPException 500 (name_error_detail q)).
Proof. unfold read_file. intros ->. reflexivity. Qed.

(** Once the name is bound to a check that accepts the path, the checks
    run in the order of the code. *)
Lemma read_file_bound (g : globals) (f : string -> bool) (os : os_state)
    (fs : gmap string node) (p q : string) :
  is_path_allowed g = Some f ->
  normalize_path os p = Ok q ->
  f (Posix.abspath os q) = true ->
  read_file g os fs p
  = if negb (Fs.exists_ fs (Posix.abspath os q)) then Raise (not_found q)
    else if negb (Fs.isfile fs (Posix.abspath os q)) then Raise (not_a_file q)
    else match try_encodings fs (Posix.abspath os q) q encodings with
         | Ok content => Ok content
         | Raise e => read_file_except q e
         end.
Proof.
  intros Hg Hn Hf. unfold read_file, read_normalized, call_is_path_allowed.
  rewrite Hn, Hg. cbn [bind]. rewrite Hf. cbn [negb].
  destruct (Fs.exists_ _ _); [|reflexivity].
  destruct (Fs.isfile _ _); reflexivity.
Qed.

Lemma utf8_ascii (bs : list N) :
  forallb (fun b => (b <? 128)%N) bs = true -> Codec.utf8 bs = Some bs.
Proof.
  induction bs as [|b r IH]; [reflexivity|].
  cbn [forallb]. intros [Hb Hr]%andb_true_iff.
  cbn [Codec.utf8]. rewrite Hb, (IH Hr). reflexivity.
Qed.

(** The loop stops at [latin-1] at the latest: it never runs out of
    encodings. *)
Lemma try_encodings_not_undecodable (fs : gmap string node)
    (abs_path file_path q : string) :
  try_encodings fs abs_path file_path encodings <> Raise (undecodable q).
Proof.
  unfold encodings. cbn [try_encodings]. unfold Fs.read_text.
  cbn [Codec.lookup String.eqb Ascii.eqb Bool.eqb]. cbn.
  unfold Fs.read_bytes.
  destruct (fs !! abs_path) as [[[] data| |stream]|]; cbn [bind];
    try discriminate;
    destruct (Codec.utf8 _); discriminate.
Qed.

Lemma read_file_except_500 {A : Type} (fp q : string) (e : exn) :
  (forall s d, e <> HTTPException s d) ->
  @read_file_except A fp e <> Raise (undecodable q).
Proof. intros H. destruct e; try discriminate. now destruct (H status_code detail). Qed.

(** C6: [latin-1] is in the list of encodings and decodes every byte
    content, so the loop always returns before the list is exhausted:
    [read_file] never raises the error that no supported encoding could
    read the file, whatever the state of the module, the process and the
    file system. *)
Theorem undecodable_unreachable :
  (forall data : list byte,
     exists encoding decode content,
       In encoding encodings /\ Codec.lookup encoding = Some decode
       /\ decode (List.map Codec.byte_val data) = Some content)
  /\ (forall (fs : gmap string node) (abs_path file_path q : string),
        try_encodings fs abs_path file_path encodings <> Raise (undecodable q))
  /\ (forall (g : globals) (os : os_state) (fs : gmap string node)
             (file_path q : string),
        read_file g os fs file_path <> Raise (undecodable q)).
Proof.
  split; [|split].
  - intros data. exists "latin-1", Codec.latin_1, (List.map Codec.byte_val data).
    split; [right; left; reflexivity | split; reflexivity].
  - intros. apply try_encodings_not_undecodable.
  - intros g os fs p q. unfold read_file. rewrite normalize_path_cases.
    destruct (existsb _ _); [|discriminate].
    unfold read_normalized, call_is_path_allowed.
    destruct (is_path_allowed g) as [f|]; cbn [bind]; [|discriminate].
    destruct (f _); cbn [negb]; [|discriminate].
    destruct (Fs.exists_ _ _); cbn [negb]; [|discriminate].
    destruct (Fs.isfile _ _); cbn [negb]; [|discriminate].
    destruct (try_encodings _ _ _ _) as [content|e] eqn:E; [discriminate|].
    destruct e; try discriminate. cbn [read_file_except]. rewrite <- E.
    apply try_encodings_not_undecodable.
Qed.

(** C4: main.py binds no [is_path_allowed], so a validated path never
    reaches the existence check: a missing file and a directory both end
    in status 500, not 404 and 400. *)
Theorem read_file_missing_and_directory (base : list string) :
  (normalize_path os_example "/home/u/Documents/missing.txt"
   = Ok "/home/u/Documents/missing.txt"
   /\ Fs.exists_ fs_example "/home/u/Documents/missing.txt" = false
   /\ read_file (main_py base) os_example fs_example "/home/u/Documents/missing.txt"
      = Raise (HTTPException 500
          "Error reading file /home/u/Documents/missing.txt: name 'is_path_allowed' is not defined"))
  /\ (normalize_path os_example "/home/u/Documents" = Ok "/home/u/Documents"
      /\ Fs.exists_ fs_example "/home/u/Documents" = true
      /\ Fs.isfile fs_example "/home/u/Documents" = false
      /\ read_file (main_py base) os_example fs_example "/home/u/Documents"
         = Raise (HTTPException 500
             "Error reading file /home/u/Documents: name 'is_path_allowed' is not defined")).
Proof.
  split.
  - split; [reflexivity|]. split; [reflexivity|].
    exact (read_file_name_error base os_example fs_example
             "/home/u/Documents/missing.txt" "/home/u/Documents/missing.txt"
             eq_refl).
  - split; [reflexivity|]. split; [reflexivity|]. split; [reflexivity|].
    exact (read_file_name_error base os_example fs_example
             "/home/u/Documents" "/home/u/Documents" eq_refl).
Qed.

(** C5: for the same reason an existing, readable, regular file of ASCII
    bytes under an allowed directory is not read: [read_file] ends in
    status 500. *)
Theorem read_file_ascii_file (base : list string) :
  normalize_path os_example "/home/u/Documents/notes.txt"
  = Ok "/home/u/Documents/notes.txt"
  /\ fs_example !! "/home/u/Documents/notes.txt"
     = Some (RegularFile true (list_byte_of_string "plain text"))
  /\ forallb (fun b => (Codec.byte_val b <? 128)%N)
             (list_byte_of_string "plain text") = true
  /\ read_file (main_py base) os_example fs_example "/home/u/Documents/notes.txt"
     = Raise (HTTPException 500
         "Error reading file /home/u/Documents/notes.txt: name 'is_path_allowed' is not defined").
Proof.
  split; [reflexivity|]. split; [reflexivity|]. split; [reflexivity|].
  exact (read_file_name_error base os_example fs_example
           "/home/u/Documents/notes.txt" "/home/u/Documents/notes.txt" eq_refl).
Qed.

Lemma universal_newlines_no_cr (t : text) :
  forallb (fun c => negb (c =? 13)%N) t = true -> Codec.universal_newlines t = t.
Proof.
  induction t as [|c r IH]; [reflexivity|].
  cbn [forallb]. intros [Hc Hr]%andb_true_iff.
  cbn [Codec.universal_newlines].
  apply Bool.negb_true_iff in Hc. rewrite Hc, (IH Hr). reflexivity.
Qed.

Lemma forallb_map {A B : Type} (f : A -> B) (p : B -> bool) (l : list A) :
  forallb p (List.map f l) = forallb (fun a => p (f a)) l.
Proof. induction l as [|a l IH]; [reflexivity|]. cbn. now rewrite IH. Qed.

(** X1: with [is_path_allowed] bound to a check that accepts the path, a
    missing path is answered with 404 and one that exists without being
    a regular file with 400; the existence check comes first. *)
Theorem read_file_checks_when_bound (g : globals) (f : string -> bool)
    (os : os_state) (fs : gmap string node) (p q : string) :
  is_path_allowed g = Some f ->
  normalize_path os p = Ok q ->
  f (Posix.abspath os q) = true ->
  (Fs.exists_ fs (Posix.abspath os q) = false ->
   read_file g os fs p = Raise (not_found q))
  /\ (Fs.exists_ fs (Posix.abspath os q) = true ->
      Fs.isfile fs (Posix.abspath os q) = false ->
      read_file g os fs p = Raise (not_a_file q)).
Proof.
  intros Hg Hn Hf. rewrite (read_file_bound g f os fs p q Hg Hn Hf).
  split.
  - intros ->. reflexivity.
  - intros -> ->. reflexivity.
Qed.

Lemma read_file_checks_when_bound_witness :
  read_file (bound_globals (fun _ => true)) os_example fs_example
    "/home/u/Documents/missing.txt"
  = Raise (not_found "/home/u/Documents/missing.txt")
  /\ read_file (bound_globals (fun _ => true)) os_example fs_example
       "/home/u/Documents"
     = Raise (not_a_file "/home/u/Documents").
Proof.
  split.
  - apply (proj1 (read_file_checks_when_bound (bound_globals (fun _ => true))
                    (fun _ => true) os_example fs_example
                    "/home/u/Documents/missing.txt" "/home/u/Documents/missing.txt"
                    eq_refl eq_refl eq_refl)).
    reflexivity.
  - apply (proj2 (read_file_checks_when_bound (bound_globals (fun _ => true))
                    (fun _ => true) os_example fs_example
                    "/home/u/Documents" "/home/u/Documents"
                    eq_refl eq_refl eq_refl)); reflexivity.
Defined.

(** X2: with [is_path_allowed] bound to a check that accepts the path, a
    readable regular file of ASCII bytes is decoded by [utf-8], the first
    encoding: the text returned holds the bytes as code points, with the
    line ends [\r\n] and [\r] of text mode read as [\n]. *)
Theorem read_file_ascii_when_bound (g : globals) (f : string -> bool)
    (os : os_state) (fs : gmap string node) (p q : string) (data : list byte) :
  is_path_allowed g = Some f ->
  normalize_path os p = Ok q ->
  f (Posix.abspath os q) = true ->
  fs !! Posix.abspath os q = Some (RegularFile true data) ->
  forallb (fun b => (Codec.byte_val b <? 128)%N) data = true ->
  Fs.read_text fs (Posix.abspath os q) "utf-8"
  = Ok (Codec.universal_newlines (List.map Codec.byte_val data))
  /\ read_file g os fs p
     = Ok (Codec.universal_newlines (List.map Codec.byte_val data))
  /\ (forallb (fun b => negb (Codec.byte_val b =? 13)%N) data = true ->
      read_file g os fs p = Ok (List.map Codec.byte_val data)).
Proof.
  intros Hg Hn Hf Hfs Hascii.
  assert (Hread : Fs.read_text fs (Posix.abspath os q) "utf-8"
                  = Ok (Codec.universal_newlines (List.map Codec.byte_val data))).
  { unfold Fs.read_text, Fs.read_bytes. rewrite Hfs.
    cbn [Codec.lookup String.eqb Ascii.eqb Bool.eqb bind].
    rewrite utf8_ascii; [reflexivity|]. now rewrite forallb_map. }
  assert (Hfile : read_file g os fs p
                  = Ok (Codec.universal_newlines (List.map Codec.byte_val data))).
  { rewrite (read_file_bound g f os fs p q Hg Hn Hf).
    unfold Fs.exists_, Fs.isfile. rewrite Hfs. cbn [negb].
    unfold encodings. cbn [try_encodings]. rewrite Hread. reflexivity. }
  split; [exact Hread|]. split; [exact Hfile|].
  intros Hcr. rewrite Hfile. f_equal.
  apply universal_newlines_no_cr. now rewrite forallb_map.
Qed.

Lemma read_file_ascii_when_bound_witness :
  read_file (bound_globals (fun _ => true)) os_example fs_example
    "/home/u/Documents/notes.txt"
  = Ok (Codec.of_string "plain text").
Proof.
  apply (read_file_ascii_when_bound (bound_globals (fun _ => true))
           (fun _ => true) os_example fs_example
           "/home/u/Documents/notes.txt" "/home/u/Documents/notes.txt"
           (list_byte_of_string "plain text")
           eq_refl eq_refl eq_refl eq_refl eq_refl).
  reflexivity.
Defined.

(* ================================================================== *)
(** * Properties of [execute_tool] and of the agent's constructor *)

(** C9: an empty value of the required parameter is answered like an
    absent one, with status 400 and the text that the parameter is
    required; the tool is not run. *)
Theorem execute_tool_empty_parameter (g : globals) (os : os_state)
    (fs : gmap string node) (parameters : gmap string string) :
  (parameters !! "file_path" = Some "" ->
   execute_tool g os fs "read_file" parameters
   = Raise (HTTPException 400 "file_path parameter is required"))
  /\ (parameters !! "text" = Some "" ->
      execute_tool g os fs "count_r" parameters
      = Raise (HTTPException 400 "text parameter is required"))
  /\ (parameters !! "file_path" = None ->
      execute_tool g os fs "read_file" parameters
      = Raise (HTTPException 400 "file_path parameter is required"))
  /\ (parameters !! "text" = None ->
      execute_tool g os fs "count_r" parameters
      = Raise (HTTPException 400 "text parameter is required")).
Proof.
  unfold execute_tool, execute_tool_try. cbn [String.eqb Ascii.eqb Bool.eqb].
  repeat split; intros ->; reflexivity.
Qed.

Lemma execute_tool_empty_parameter_witness :
  execute_tool (main_py []) os_example fs_example "read_file" (<["file_path" := ""]> ∅)
  = Raise (HTTPException 400 "file_path parameter is required")
  /\ execute_tool (main_py []) os_example fs_example "count_r" (<["text" := ""]> ∅)
     = Raise (HTTPException 400 "text parameter is required").
Proof.
  split.
  - apply (proj1 (execute_tool_empty_parameter (main_py []) os_example
                    fs_example (<["file_path" := ""]> ∅))).
    reflexivity.
  - apply (proj1 (proj2 (execute_tool_empty_parameter (main_py []) os_example
                           fs_example (<["text" := ""]> ∅)))).
    reflexivity.
Defined.

(** C8, against the claim as stated: a credential that is present with
    the empty string as its value makes the constructor fail. *)
Lemma init_rejects_empty_credential :
  environ os_empty_key !! "OPENAI_API_KEY" = Some ""
  /\ MCPAgent.__init__ os_empty_key = Raise MCPAgent.not_set
  /\ ~ (forall os : os_state,
          is_Some (environ os !! "OPENAI_API_KEY") ->
          exists agent, MCPAgent.__init__ os = Ok agent).
Proof.
  split; [reflexivity|]. split; [reflexivity|].
  intros H. destruct (H os_empty_key) as [agent Hagent].
  - exists "". reflexivity.
  - discriminate Hagent.
Qed.

(** C8, amended: the constructor raises [ValueError] exactly when the
    credential is absent from the environment or empty; for any other
    value it succeeds and stores that value in the instance and in
    [openai.api_key]. *)
Theorem init_credential (os : os_state) :
  (environ os !! "OPENAI_API_KEY" = None
   \/ environ os !! "OPENAI_API_KEY" = Some ""
   <-> MCPAgent.__init__ os
       = Raise (ValueError "OPENAI_API_KEY environment variable not set"))
  /\ (forall key : string,
        environ os !! "OPENAI_API_KEY" = Some key -> key <> "" ->
        MCPAgent.__init__ os
        = Ok {| MCPAgent.api_key := key; MCPAgent.openai_api_key := key |}).
Proof.
  unfold MCPAgent.__init__.
  destruct (environ os !! "OPENAI_API_KEY") as [key|] eqn:E.
  - destruct (String.eqb_spec key "") as [->|Hne]; split.
    + split; [reflexivity | intros _; right; reflexivity].
    + intros key [= <-] Hne. now destruct Hne.
    + split; [intros [|[= ->]]; [discriminate | now destruct Hne] | discriminate].
    + intros key' [= <-] _. reflexivity.
  - split; [split; [reflexivity | intros _; left; reflexivity] | discriminate].
Qed.

Lemma init_credential_witness :
  MCPAgent.__init__ os_with_key
  = Ok {| MCPAgent.api_key := "sk-test"; MCPAgent.openai_api_key := "sk-test" |}
  /\ MCPAgent.__init__ os_example
     = Raise (ValueError "OPENAI_API_KEY environment variable not set").
Proof.
  split.
  - apply (proj2 (init_credential os_with_key) "sk-test"); [reflexivity | discriminate].
  - apply (proj1 (init_credential os_example)). left. reflexivity.
Defined.

(* ================================================================== *)
(** * More on [normalize_path]: what a validated path looks like *)

Lemma isabs_cons (s : string) :
  Posix.isabs s = true -> exists r, s = String "/" r.
Proof.
  unfold Posix.isabs. intros [t ->]%startswith_app. exists t. reflexivity.
Qed.

Lemma isabs_slash (r : string) : Posix.isabs (String "/" r) = true.
Proof. unfold Posix.isabs. now rewrite startswith_cons, startswith_nil. Qed.

Lemma isabs_initial_slashes (y : string) :
  Posix.isabs y = true -> 1 <= Posix.initial_slashes y.
Proof.
  unfold Posix.isabs, Posix.initial_slashes. intros ->.
  destruct (_ && _)%bool; lia.
Qed.

(** The shape of [normpath] on an absolute path. *)
Lemma normpath_shape_abs (y : string) :
  Posix.isabs y = true ->
  exists k cs, 1 <= k <= 2 /\ normal k cs
    /\ Posix.normpath y = Str.times "/" k ++ Str.join "/" cs.
Proof.
  intros Habs. pose proof (isabs_initial_slashes y Habs) as Hk1.
  pose proof (initial_slashes_le y) as Hk2.
  destruct (isabs_cons y Habs) as [r ->].
  unfold Posix.normpath. cbn [String.eqb]. cbv zeta.
  set (k := Posix.initial_slashes (String "/" r)) in *.
  set (cs := fold_left (Posix.norm_step k) (Str.split Posix.sep (String "/" r)) []).
  exists k, cs. split; [lia|]. split.
  - apply fold_norm_step_normal; [apply normal_nil | apply split_sep_free].
  - rewrite (times_sep k _ Hk2).
    destruct k as [|[|[|k]]]; try lia; reflexivity.
Qed.

Lemma normpath_abs (y : string) :
  Posix.isabs y = true -> Posix.isabs (Posix.normpath y) = true.
Proof.
  intros (k & cs & Hk & _ & ->)%normpath_shape_abs.
  rewrite (times_sep k _ (proj2 Hk)).
  destruct k as [|[|[|k]]]; try lia; apply isabs_slash.
Qed.

Lemma isabs_app (a b : string) :
  Posix.isabs a = true -> Posix.isabs (a ++ b) = true.
Proof. intros [r ->]%isabs_cons. rewrite append_cons. apply isabs_slash. Qed.

Lemma join_abs (a b : string) :
  Posix.isabs a = true -> Posix.isabs (Posix.join a b) = true.
Proof.
  intros Ha. unfold Posix.join.
  destruct (Str.startswith b "/") eqn:Hb; [exact Hb|].
  destruct (_ || _)%bool; apply isabs_app, Ha.
Qed.

Lemma abspath_abs (os : os_state) (e : string) :
  Posix.isabs (getcwd os) = true -> Posix.isabs (Posix.abspath os e) = true.
Proof.
  intros Hcwd. unfold Posix.abspath. apply normpath_abs.
  destruct (Posix.isabs e) eqn:He; cbn [negb]; [exact He | apply join_abs, Hcwd].
Qed.

Lemma normalized_abs (os : os_state) (p : string) :
  Posix.isabs (getcwd os) = true -> Posix.isabs (normalized os p) = true.
Proof.
  intros Hcwd. unfold normalized. apply normpath_abs.
  destruct (Posix.isabs (Posix.expandvars os p)) eqn:He; cbn [negb];
    [exact He | apply abspath_abs, Hcwd].
Qed.

Lemma normal_no_dotdot (k : nat) (cs : list string) :
  normal k cs -> 1 <= k -> ~ In ".." cs.
Proof.
  intros [_ Hd] Hk Hin. apply in_split in Hin as (l1 & l2 & ->).
  destruct (Hd l1 l2 eq_refl) as [-> _]. lia.
Qed.

(** X3: when the working directory is absolute, as [os.getcwd] gives it,
    a path the validator returns is absolute and none of its components
    is [.] or [..]: the dots are resolved before the prefix test. *)
Theorem validated_path_has_no_dots (os : os_state) (p q : string) :
  Posix.isabs (getcwd os) = true ->
  normalize_path os p = Ok q ->
  Posix.isabs q = true
  /\ forall c, In c (Str.split Posix.sep q) -> c <> "." /\ c <> "..".
Proof.
  intros Hcwd Hq. rewrite normalize_path_cases in Hq.
  destruct (existsb _ _); [|discriminate]. injection Hq as <-.
  split; [apply normalized_abs, Hcwd|].
  unfold normalized.
  match goal with
  | |- context [Posix.normpath ?y] =>
      assert (Hy : Posix.isabs y = true)
  end.
  { destruct (Posix.isabs (Posix.expandvars os p)) eqn:He; cbn [negb];
      [exact He | apply abspath_abs, Hcwd]. }
  destruct (normpath_shape_abs _ Hy) as (k & cs & Hk & Hn & ->).
  rewrite (split_joined k cs (proj1 Hn) (proj2 Hk)).
  intros c [Hc | Hc]%in_app_or.
  - apply repeat_spec in Hc as ->. split; discriminate.
  - assert (Hcs : c = "" \/ In c cs).
    { destruct cs; [destruct Hc as [<-|[]]; now left | now right]. }
    destruct Hcs as [-> | Hin]; [split; discriminate|].
    split.
    + destruct Hn as [Hp _]. rewrite List.Forall_forall in Hp.
      exact (proj1 (proj2 (Hp c Hin))).
    + intros ->. exact (normal_no_dotdot k cs Hn (proj1 Hk) Hin).
Qed.

Lemma validated_path_has_no_dots_witness :
  Posix.isabs "/home/u/Documents/notes.txt" = true
  /\ forall c, In c (Str.split Posix.sep "/home/u/Documents/notes.txt") ->
       c <> "." /\ c <> "..".
Proof.
  apply (validated_path_has_no_dots os_example
           "$HOME/Documents/sub/../notes.txt" "/home/u/Documents/notes.txt");
    reflexivity.
Defined.

(** X4: when the working directory is absolute, [read_file] makes the
    validated path absolute a second time without changing it:
    [abs_path] is [file_path]. *)
Theorem abspath_of_validated (os : os_state) (p q : string) :
  Posix.isabs (getcwd os) = true ->
  normalize_path os p = Ok q ->
  Posix.abspath os q = q.
Proof.
  intros Hcwd Hq. rewrite normalize_path_cases in Hq.
  destruct (existsb _ _); [|discriminate]. injection Hq as <-.
  unfold Posix.abspath. rewrite (normalized_abs os p Hcwd). cbn [negb].
  apply normalized_fixed.
Qed.

Lemma abspath_of_validated_witness :
  Posix.abspath os_example "/home/u/Documents/notes.txt"
  = "/home/u/Documents/notes.txt".
Proof.
  apply (abspath_of_validated os_example "$HOME/Documents/./notes.txt");
    reflexivity.
Defined.

(* ================================================================== *)
(** * [expandvars] as [normalize_path] uses it *)

Lemma contains_cons (a : ascii) (r sub : string) :
  Str.contains (String a r) sub = false ->
  String.prefix sub (String a r) = false /\ Str.contains r sub = false.
Proof. cbn [Str.contains]. apply Bool.orb_false_iff. Qed.

Lemma var_at_dollar (a : ascii) (r : string) :
  a <> "$"%char -> Posix.var_at (String a r) = None.
Proof.
  intros Ha. unfold Posix.var_at.
  destruct a as [[] [] [] [] [] [] [] []]; try reflexivity. now destruct Ha.
Qed.

Lemma expand_without_dollar (env : gmap string string) (s : string) :
  Str.contains s "$" = false -> Posix.expand_from env false 0 s = s.
Proof.
  induction s as [|a r IH]; [reflexivity|].
  intros [Hp Hr]%contains_cons. cbn [Posix.expand_from].
  rewrite var_at_dollar, (IH Hr); [reflexivity|].
  intros ->. rewrite prefix_single, Ascii.eqb_refl in Hp. discriminate.
Qed.

Lemma expand_undefined (env : gmap string string) :
  (forall name, env !! name = None) ->
  forall (s : string) (keep : bool) (n : nat),
    (keep = true \/ n = 0) -> Posix.expand_from env keep n s = s.
Proof.
  intros Hnone. induction s as [|a r IH]; intros keep n Hmode; [reflexivity|].
  cbn [Posix.expand_from]. destruct n as [|k].
  - destruct (Posix.var_at (String a r)) as [[name len]|].
    + rewrite Hnone, IH; [reflexivity | now left].
    + rewrite IH; [reflexivity | now right].
  - destruct Hmode as [-> | [=]]. rewrite IH; [reflexivity | now left].
Qed.

(** X5: [expandvars] changes nothing in a path without a dollar sign,
    and nothing at all when the environment holds no variable; a path
    without a dollar sign is so validated as it is written: made
    absolute when it is not, and normalized. *)
Theorem expandvars_unchanged (os : os_state) (path : string) :
  (Str.contains path "$" = false -> Posix.expandvars os path = path)
  /\ (environ os = ∅ -> Posix.expandvars os path = path)
  /\ (Str.contains path "$" = false ->
      normalized os path
      = Posix.normpath
          (if Posix.isabs path then path else Posix.join (getcwd os) path)).
Proof.
  split; [|split].
  - apply expand_without_dollar.
  - intros Hempty. unfold Posix.expandvars.
    apply expand_undefined; [|now right].
    intros name. rewrite Hempty. apply lookup_empty.
  - intros Hd. unfold normalized, Posix.abspath, Posix.expandvars.
    rewrite (expand_without_dollar (environ os) path Hd).
    destruct (Posix.isabs path); cbn [negb];
      [reflexivity | apply normpath_idempotent].
Qed.

Lemma expandvars_unchanged_witness :
  Posix.expandvars os_example "/home/u/Documents/notes.txt"
  = "/home/u/Documents/notes.txt"
  /\ Posix.expandvars os_no_env "$HOME/${X}/notes.txt" = "$HOME/${X}/notes.txt".
Proof.
  split.
  - apply (proj1 (expandvars_unchanged os_example "/home/u/Documents/notes.txt")).
    reflexivity.
  - apply (proj1 (proj2 (expandvars_unchanged os_no_env "$HOME/${X}/notes.txt"))).
    reflexivity.
Defined.












(* ================================================================== *)
(** * More on the decoding loop of [read_file] *)

Lemma read_text_bytes (fs : gmap string node) (path encoding : string)
    (data : list byte) :
  Fs.read_bytes fs path = Ok data ->
  Fs.read_text fs path encoding
  = match Codec.lookup encoding with
    | None => Raise (LookupError ("unknown encoding: " ++ encoding))
    | Some decode =>
        match decode (List.map Codec.byte_val data) with
        | Some t => Ok (Codec.universal_newlines t)
        | None => Raise (UnicodeDecodeError encoding)
        end
    end.
Proof. unfold Fs.read_text. intros ->. reflexivity. Qed.

(** X7: the text [read_file] decodes is the [utf-8] reading of the bytes
    when they are well-formed UTF-8 and their [latin-1] reading
    otherwise, in both cases with the line ends of text mode; the third
    encoding, [cp1252], is never tried, whatever the file. *)
Theorem decoding_falls_back_to_latin_1 (fs : gmap string node)
    (abs_path file_path : string) :
  try_encodings fs abs_path file_path encodings
  = try_encodings fs abs_path file_path ["utf-8"; "latin-1"]
  /\ forall data : list byte,
       Fs.read_bytes fs abs_path = Ok data ->
       try_encodings fs abs_path file_path encodings
       = Ok (Codec.universal_newlines
               match Codec.utf8 (List.map Codec.byte_val data) with
               | Some t => t
               | None => List.map Codec.byte_val data
               end).
Proof.
  unfold encodings. split.
  - cbn [try_encodings].
    destruct (Fs.read_bytes fs abs_path) as [data|e] eqn:E.
    + rewrite !(read_text_bytes fs abs_path _ data E).
      cbn [Codec.lookup String.eqb Ascii.eqb Bool.eqb Codec.latin_1].
      destruct (Codec.utf8 _); reflexivity.
    + unfold Fs.read_text. rewrite E. cbn [bind].
      destruct e; reflexivity.
  - intros data E. cbn [try_encodings].
    rewrite !(read_text_bytes fs abs_path _ data E).
    cbn [Codec.lookup String.eqb Ascii.eqb Bool.eqb Codec.latin_1].
    destruct (Codec.utf8 _); reflexivity.
Qed.

Lemma decoding_falls_back_to_latin_1_witness :
  try_encodings fs_legacy "/home/u/Documents/legacy.txt"
    "/home/u/Documents/legacy.txt" encodings
  = Ok [99; 97; 102; 233; 10]%N.
Proof.
  apply (proj2 (decoding_falls_back_to_latin_1 fs_legacy
                  "/home/u/Documents/legacy.txt" "/home/u/Documents/legacy.txt")
           [x63; x61; x66; xe9; x0d; x0a]%byte).
  reflexivity.
Defined.

Lemma universal_newlines_bounded (n : nat) (t : text) :
  length t <= n -> ~ In 13%N (Codec.universal_newlines t).
Proof.
  revert t. induction n as [|n IH]; intros t Hlen.
  - destruct t; [intros [] | cbn in Hlen; lia].
  - destruct t as [|c r]; [intros []|]. cbn [length] in Hlen.
    cbn [Codec.universal_newlines].
    destruct (N.eqb_spec c 13) as [->|Hc].
    + destruct r as [|d r']; [intros [[=]|[]]|]. cbn [length] in Hlen.
      destruct (d =? 10)%N; intros [[=]|Hin];
        revert Hin; apply IH; cbn [length]; lia.
    + intros [E|Hin]; [congruence|]. revert Hin. apply IH. lia.
Qed.

Lemma try_encodings_ok (fs : gmap string node) (abs_path file_path : string)
    (encs : list string) (content : text) :
  try_encodings fs abs_path file_path encs = Ok content ->
  exists t, content = Codec.universal_newlines t.
Proof.
  induction encs as [|enc rest IH]; [discriminate|].
  cbn [try_encodings]. unfold Fs.read_text at 1.
  destruct (Fs.read_bytes fs abs_path) as [data|e]; cbn [bind].
  - destruct (Codec.lookup enc) as [decode|]; [|discriminate].
    destruct (decode _) as [t|]; [|exact IH].
    intros [= <-]. exists t. reflexivity.
  - destruct e; try discriminate. exact IH.
Qed.

(** X8: the text [read_file] returns holds no carriage return: text
    mode has turned every [\r\n] and every [\r] into [\n]. *)
Theorem read_file_text_has_no_cr (g : globals) (os : os_state)
    (fs : gmap string node) (file_path : string) (content : text) :
  read_file g os fs file_path = Ok content -> ~ In 13%N content.
Proof.
  unfold read_file. destruct (normalize_path os file_path) as [q|e];
    [|destruct e; discriminate].
  unfold read_normalized.
  destruct (call_is_path_allowed g _) as [[]|e]; cbn [bind negb];
    [| discriminate | destruct e; discriminate].
  destruct (Fs.exists_ _ _); cbn [negb]; [|discriminate].
  destruct (Fs.isfile _ _); cbn [negb]; [|discriminate].
  destruct (try_encodings _ _ _ _) as [t|e] eqn:E; [|destruct e; discriminate].
  intros [= <-]. apply try_encodings_ok in E as [t0 ->].
  apply (universal_newlines_bounded (length t0)). lia.
Qed.

Lemma read_file_text_has_no_cr_witness :
  ~ In 13%N [99; 97; 102; 233; 10]%N.
Proof.
  apply (read_file_text_has_no_cr (bound_globals (fun _ => true)) os_example
           fs_legacy "/home/u/Documents/legacy.txt").
  reflexivity.
Defined.

(* ================================================================== *)
(** * Properties of [process_request], beside [execute_tool] *)

Lemma lower_app (a b : string) : Str.lower (a ++ b) = Str.lower a ++ Str.lower b.
Proof.
  induction a as [|c a IH]; [reflexivity|].
  rewrite append_cons. cbn [Str.lower]. now rewrite IH, append_cons.
Qed.

Lemma prefix_app (a b : string) : String.prefix a (a ++ b) = true.
Proof.
  induction a as [|c a IH]; [apply prefix_empty|].
  rewrite append_cons. cbn [String.prefix].
  destruct (ascii_dec c c); [exact IH | congruence].
Qed.

Lemma contains_prefix (s sub : string) :
  String.prefix sub s = true -> Str.contains s sub = true.
Proof. intros H. destruct s; cbn [Str.contains]; now rewrite H. Qed.

Lemma split_from_nonempty (sep : string) (n : nat) (s : string) :
  Str.split_from sep n s <> [].
Proof.
  revert n. induction s as [|c r IH]; intros n; cbn [Str.split_from];
    [discriminate|].
  destruct n; [|apply IH].
  destruct (String.prefix sep (String c r)); [discriminate|].
  destruct (Str.split_from sep 0 r); discriminate.
Qed.

(** Splitting at a separator that does not occur gives the one piece. *)
Lemma split_str_absent (s sub : string) :
  Str.contains s sub = false -> Str.split_str s sub = [s].
Proof.
  unfold Str.split_str. induction s as [|c r IH]; [reflexivity|].
  intros [Hp Hr]%contains_cons. cbn [Str.split_from].
  rewrite Hp, (IH Hr). reflexivity.
Qed.

Lemma split_from_skip (sep a rest : string) :
  Str.split_from sep (String.length a) (a ++ rest) = Str.split_from sep 0 rest.
Proof.
  induction a as [|c a IH]; [reflexivity|].
  rewrite append_cons. cbn [String.length Str.split_from]. exact IH.
Qed.

(** Splitting a string that starts with the separator. *)
Lemma split_str_prefix (c : ascii) (sub rest : string) :
  Str.split_str (String c sub ++ rest) (String c sub)
  = "" :: Str.split_str rest (String c sub).
Proof.
  unfold Str.split_str.
  pose proof (prefix_app (String c sub) rest) as Hp.
  rewrite append_cons in Hp |- *. cbn [Str.split_from]. rewrite Hp.
  cbn [String.length Nat.sub]. rewrite Nat.sub_0_r.
  now rewrite split_from_skip.
Qed.

Lemma second_after_prefix (c : ascii) (sub rest : string) :
  Str.contains rest (String c sub) = false ->
  second (Str.split_str (String c sub ++ rest) (String c sub)) = Ok rest.
Proof.
  intros H. now rewrite split_str_prefix, (split_str_absent rest _ H).
Qed.

Lemma second_absent (s sub : string) :
  Str.contains s sub = false ->
  second (Str.split_str s sub) = Raise (LookupError "list index out of range").
Proof. intros H. now rewrite (split_str_absent s sub H). Qed.

(** [read_file] raises nothing but an [HTTPException]. *)
Lemma read_file_raises_http (g : globals) (os : os_state)
    (fs : gmap string node) (p : string) (e : exn) :
  read_file g os fs p = Raise e -> exists s d, e = HTTPException s d.
Proof.
  assert (Hexc : forall fp e0, @read_file_except text fp e0 = Raise e ->
                               exists s d, e = HTTPException s d).
  { intros fp e0. destruct e0; cbn [read_file_except]; intros [= <-]; eauto. }
  unfold read_file. destruct (normalize_path os p) as [q|e0]; [|apply Hexc].
  destruct (read_normalized g os fs q) as [t|e0]; [discriminate | apply Hexc].
Qed.

(** As main.py stands, [read_file] returns nothing. *)
Lemma read_file_main_py_raises (base : list string) (os : os_state)
    (fs : gmap string node) (p : string) :
  exists s d, read_file (main_py base) os fs p = Raise (HTTPException s d).
Proof.
  destruct (normalize_path os p) as [q|e] eqn:E.
  - rewrite (read_file_name_error base os fs p q E). eauto.
  - unfold read_file. rewrite E. rewrite normalize_path_cases in E.
    destruct (existsb _ _); [discriminate|]. injection E as <-.
    cbn [read_file_except access_denied]. eauto.
Qed.

(** X9: [execute_tool] hands the answer of [read_file] on as it is, the
    text as the response and an error with its status and detail;
    [process_request] answers every error of [read_file] with status
    500, whatever its status was. *)
Theorem read_file_through_the_endpoints (g : globals) (os : os_state)
    (fs : gmap string node) (file_path rest : string)
    (parameters : gmap string string) :
  (parameters !! "file_path" = Some file_path -> file_path <> "" ->
   execute_tool g os fs "read_file" parameters
   = match read_file g os fs file_path with
     | Ok content =>
         Ok {| response := content;
               metadata := [("status", "success"); ("tool", "read_file")] |}
     | Raise e => Raise e
     end)
  /\ (Str.contains rest "read_file" = false ->
      match read_file g os fs (Str.strip rest) with
      | Ok content =>
          process_request g os fs ("read_file" ++ rest)
          = Ok {| response := content;
                  metadata := [("status", "success"); ("tool", "read_file")] |}
      | Raise _ =>
          exists detail,
            process_request g os fs ("read_file" ++ rest)
            = Raise (HTTPException 500 detail)
      end).
Proof.
  split.
  - intros Hp Hne. unfold execute_tool, execute_tool_try.
    cbn [String.eqb Ascii.eqb Bool.eqb]. rewrite Hp.
    apply String.eqb_neq in Hne. rewrite Hne.
    destruct (read_file g os fs file_path) as [content|e] eqn:E; cbn [bind];
      [reflexivity|].
    apply read_file_raises_http in E as (s & d & ->). reflexivity.
  - intros Hrest. unfold process_request, process_request_try.
    rewrite lower_app.
    change (Str.lower "read_file") with "read_file".
    rewrite (contains_prefix _ _ (prefix_app "read_file" (Str.lower rest))).
    rewrite (second_after_prefix "r" "ead_file" rest Hrest). cbn [bind].
    destruct (read_file g os fs (Str.strip rest)); cbn [bind];
      [reflexivity | eauto].
Qed.

Lemma read_file_through_the_endpoints_witness :
  execute_tool (bound_globals (fun _ => true)) os_example fs_example "read_file"
    (<["file_path" := "/etc/passwd"]> ∅)
  = Raise access_denied
  /\ exists detail,
       process_request (bound_globals (fun _ => true)) os_example fs_example
         "read_file /etc/passwd"
       = Raise (HTTPException 500 detail).
Proof.
  split.
  - apply (proj1 (read_file_through_the_endpoints
                    (bound_globals (fun _ => true)) os_example fs_example
                    "/etc/passwd" "" (<["file_path" := "/etc/passwd"]> ∅)));
      [reflexivity | discriminate].
  - apply (proj2 (read_file_through_the_endpoints
                    (bound_globals (fun _ => true)) os_example fs_example
                    "" " /etc/passwd" ∅)).
    reflexivity.
Defined.

(** X10: [process_request] looks for the tool's name in the lowercased
    prompt and splits the prompt as it was written: a prompt that names
    its tool only in another case is answered with status 500, the text
    of the [IndexError]. *)
Theorem process_request_other_case (g : globals) (os : os_state)
    (fs : gmap string node) (prompt : string) :
  (Str.contains (Str.lower prompt) "read_file" = true ->
   Str.contains prompt "read_file" = false ->
   process_request g os fs prompt
   = Raise (HTTPException 500 "list index out of range"))
  /\ (Str.contains (Str.lower prompt) "read_file" = false ->
      Str.contains (Str.lower prompt) "count_r" = true ->
      Str.contains prompt "count_r" = false ->
      process_request g os fs prompt
      = Raise (HTTPException 500 "list index out of range")).
Proof.
  unfold process_request, process_request_try. split.
  - intros -> H. now rewrite (second_absent prompt _ H).
  - intros -> -> H. now rewrite (second_absent prompt _ H).
Qed.

Lemma process_request_other_case_witness :
  process_request (main_py []) os_example fs_example
    "READ_FILE /home/u/Documents/notes.txt"
  = Raise (HTTPException 500 "list index out of range")
  /\ process_request (main_py []) os_example fs_example "Count_R river"
     = Raise (HTTPException 500 "list index out of range").
Proof.
  split.
  - apply (proj1 (process_request_other_case (main_py []) os_example fs_example
                    "READ_FILE /home/u/Documents/notes.txt")); reflexivity.
  - apply (proj2 (process_request_other_case (main_py []) os_example fs_example
                    "Count_R river")); reflexivity.
Defined.

(** X11: [process_request] raises nothing but status 500; a prompt that
    names neither tool is no error: it is answered with the list of the
    tools and the metadata of an invalid request; and as main.py
    stands, with [is_path_allowed] unbound, every prompt that names
    [read_file] is answered with status 500. *)
Theorem process_request_statuses (g : globals) (os : os_state)
    (fs : gmap string node) (prompt : string) :
  (forall e, process_request g os fs prompt = Raise e ->
             exists detail, e = HTTPException 500 detail)
  /\ (Str.contains (Str.lower prompt) "read_file" = false ->
      Str.contains (Str.lower prompt) "count_r" = false ->
      process_request g os fs prompt
      = Ok {| response :=
                Codec.of_string
                  "Invalid tool request. Available tools: read_file, count_r";
              metadata := [("status", "error"); ("error", "invalid_tool")] |})
  /\ (forall base : list string,
        Str.contains (Str.lower prompt) "read_file" = true ->
        exists detail,
          process_request (main_py base) os fs prompt
          = Raise (HTTPException 500 detail)).
Proof.
  split; [|split].
  - intros e. unfold process_request.
    destruct (process_request_try g os fs prompt); [discriminate|].
    intros [= <-]. eauto.
  - unfold process_request, process_request_try. intros -> ->. reflexivity.
  - intros base Hc. unfold process_request, process_request_try. rewrite Hc.
    destruct (second _) as [part|e]; cbn [bind]; [|eauto].
    destruct (read_file_main_py_raises base os fs (Str.strip part))
      as (s & d & ->).
    cbn [bind]. eauto.
Qed.

Lemma process_request_statuses_witness :
  process_request (main_py []) os_example fs_example "what is the weather?"
  = Ok {| response :=
            Codec.of_string
              "Invalid tool request. Available tools: read_file, count_r";
          metadata := [("status", "error"); ("error", "invalid_tool")] |}
  /\ exists detail,
       process_request (main_py []) os_example fs_example
         "read_file /home/u/Documents/notes.txt"
       = Raise (HTTPException 500 detail).
Proof.
  split.
  - apply (proj1 (proj2 (process_request_statuses (main_py []) os_example
                           fs_example "what is the weather?"))); reflexivity.
  - apply (proj2 (proj2 (process_request_statuses (main_py []) os_example
                           fs_example "read_file /home/u/Documents/notes.txt"))
             []).
    reflexivity.
Defined.

Lemma count_if_lstrip (p sp : ascii -> bool) (s : string) :
  (forall c, sp c = true -> p c = false) ->
  count_if p (Str.lstrip_if sp s) = count_if p s.
Proof.
  intros H. induction s as [|a r IH]; [reflexivity|].
  cbn [Str.lstrip_if]. destruct (sp a) eqn:Ea; [|reflexivity].
  cbn [count_if]. now rewrite IH, (H a Ea).
Qed.

Lemma count_if_rstrip (p sp : ascii -> bool) (s : string) :
  (forall c, sp c = true -> p c = false) ->
  count_if p (Str.rstrip_if sp s) = count_if p s.
Proof.
  intros H. induction s as [|a r IH]; [reflexivity|].
  cbn [Str.rstrip_if count_if]. rewrite <- IH.
  destruct (Str.rstrip_if sp r) as [|b r'].
  - destruct (sp a) eqn:Ea; [now rewrite (H a Ea) | reflexivity].
  - reflexivity.
Qed.

Lemma space_is_no_r (c : ascii) :
  Str.is_space c = true -> Ascii.eqb (Str.lower_char c) "r" = false.
Proof.
  destruct c as [[] [] [] [] [] [] [] []]; vm_compute; congruence.
Qed.

Lemma count_r_strip (text : string) : count_r (Str.strip text) = count_r text.
Proof.
  rewrite !count_r_count_if. unfold Str.strip.
  rewrite count_if_rstrip, count_if_lstrip; auto using space_is_no_r.
Qed.

(** X12: the count of a prompt [count_r<text>] is the count of the text
    that follows the tool's name, the white space around it set aside:
    the [r] of the name is not counted, and a prompt that ends with the
    name is answered with the count 0, while [execute_tool] answers an
    empty text with status 400 and any other text with its count. *)
Theorem count_r_through_the_endpoints (g : globals) (os : os_state)
    (fs : gmap string node) (rest text : string)
    (parameters : gmap string string) :
  (Str.contains (Str.lower ("count_r" ++ rest)) "read_file" = false ->
   Str.contains rest "count_r" = false ->
   process_request g os fs ("count_r" ++ rest)
   = Ok {| response :=
             Codec.of_string
               ("Number of 'r' characters: " ++ Str.of_nat (count_r rest));
           metadata := [("status", "success"); ("tool", "count_r")] |})
  /\ (parameters !! "text" = Some text -> text <> "" ->
      execute_tool g os fs "count_r" parameters
      = Ok {| response := Codec.of_string (Str.of_nat (count_r text));
              metadata := [("status", "success"); ("tool", "count_r")] |}).
Proof.
  split.
  - intros Hrf Hrest. unfold process_request, process_request_try.
    rewrite Hrf. rewrite lower_app.
    change (Str.lower "count_r") with "count_r".
    rewrite (contains_prefix _ _ (prefix_app "count_r" (Str.lower rest))).
    rewrite (second_after_prefix "c" "ount_r" rest Hrest). cbn [bind].
    now rewrite count_r_strip.
  - intros Hp Hne. unfold execute_tool, execute_tool_try.
    cbn [String.eqb Ascii.eqb Bool.eqb]. rewrite Hp.
    apply String.eqb_neq in Hne. now rewrite Hne.
Qed.

Lemma count_r_through_the_endpoints_witness :
  process_request (main_py []) os_example fs_example "count_r"
  = Ok {| response := Codec.of_string "Number of 'r' characters: 0";
          metadata := [("status", "success"); ("tool", "count_r")] |}
  /\ execute_tool (main_py []) os_example fs_example "count_r"
       (<["text" := "River"]> ∅)
     = Ok {| response := Codec.of_string "2";
             metadata := [("status", "success"); ("tool", "count_r")] |}.
Proof.
  split.
  - apply (proj1 (count_r_through_the_endpoints (main_py []) os_example
                    fs_example "" "" ∅)); reflexivity.
  - apply (proj2 (count_r_through_the_endpoints (main_py []) os_example
                    fs_example "" "River" (<["text" := "River"]> ∅)));
      [reflexivity | discriminate].
Defined.

Lemma try_encodings_http (fs : gmap string node) (abs_path file_path : string)
    (encs : list string) (s : Z) (d : string) :
  try_encodings fs abs_path file_path encs = Raise (HTTPException s d) ->
  s = 400%Z.
Proof.
  induction encs as [|enc rest IH]; cbn [try_encodings].
  - now intros [= <- _].
  - unfold Fs.read_text at 1, Fs.read_bytes.
    destruct (fs !! abs_path) as [[[] data| |stream]|]; cbn [bind];
      try discriminate;
      (destruct (Codec.lookup enc) as [decode|]; [|discriminate]);
      (destruct (decode _); [discriminate | exact IH]).
Qed.

Lemma read_file_knows_its_tool (g : globals) (os : os_state)
    (fs : gmap string node) (p name : string) :
  read_file g os fs p <> Raise (HTTPException 404 ("Tool not found: " ++ name)).
Proof.
  unfold read_file. rewrite normalize_path_cases.
  destruct (existsb _ _); [|discriminate].
  unfold read_normalized, call_is_path_allowed.
  destruct (is_path_allowed g) as [f|]; cbn [bind]; [|discriminate].
  destruct (f _); cbn [negb]; [|discriminate].
  destruct (Fs.exists_ _ _); cbn [negb]; [|discriminate].
  destruct (Fs.isfile _ _); cbn [negb]; [|discriminate].
  destruct (try_encodings _ _ _ _) as [content|e] eqn:E; [discriminate|].
  destruct e; try discriminate. cbn [read_file_except].
  apply try_encodings_http in E as ->. discriminate.
Qed.

(** X13: the tools [list_tools] names are the tools [execute_tool]
    knows: a name that is not listed is answered with 404 and the text
    that the tool is not found, a listed name never is; and the
    parameter listed for a tool is the one [execute_tool] requires of
    it. *)
Theorem listed_tools_are_known (g : globals) (os : os_state)
    (fs : gmap string node) (name : string) (parameters : gmap string string) :
  (~ In name (List.map tool_name list_tools) <->
   execute_tool g os fs name parameters
   = Raise (HTTPException 404 ("Tool not found: " ++ name)))
  /\ (forall (t : tool) (parameter : string) (about : string * string),
        In t list_tools -> In (parameter, about) (tool_parameters t) ->
        parameters !! parameter = None ->
        execute_tool g os fs (tool_name t) parameters
        = Raise (HTTPException 400 (parameter ++ " parameter is required"))).
Proof.
  split.
  - unfold execute_tool, execute_tool_try. cbn [list_tools List.map tool_name].
    destruct (String.eqb_spec name "read_file") as [->|Hrf].
    { split; [intros H; destruct H; now left|]. intros H. exfalso.
      destruct (parameters !! "file_path") as [fp|]; [|discriminate].
      destruct (String.eqb fp ""); [discriminate|].
      destruct (read_file g os fs fp) as [c|e] eqn:E; cbn [bind] in H;
        [discriminate|].
      pose proof (read_file_knows_its_tool g os fs fp "read_file") as Hk.
      rewrite E in Hk. destruct e; try discriminate.
      injection H as -> ->. now destruct Hk. }
    destruct (String.eqb_spec name "count_r") as [->|Hcr].
    { split; [intros H; destruct H; right; now left|]. intros H. exfalso.
      destruct (parameters !! "text") as [tx|]; [|discriminate].
      destruct (String.eqb tx ""); discriminate. }
    split; [reflexivity|].
    intros _ [E|[E|[]]]; congruence.
  - intros t parameter about [<-|[<-|[]]] [[= <- <-]|[]] Hp;
      unfold execute_tool, execute_tool_try;
      cbn [tool_name String.eqb Ascii.eqb Bool.eqb]; rewrite Hp; reflexivity.
Qed.

Lemma listed_tools_are_known_witness :
  execute_tool (main_py []) os_example fs_example "write_file" ∅
  = Raise (HTTPException 404 "Tool not found: write_file")
  /\ execute_tool (main_py []) os_example fs_example "count_r" ∅
     = Raise (HTTPException 400 "text parameter is required").
Proof.
  split.
  - apply (proj1 (listed_tools_are_known (main_py []) os_example fs_example
                    "write_file" ∅)).
    intros [E|[E|[]]]; discriminate.
  - apply (proj2 (listed_tools_are_known (main_py []) os_example fs_example
                    "count_r" ∅)
             {| tool_name := "count_r";
                tool_description := "Count the number of 'r' characters in a string";
                tool_parameters :=
                  [("text", ("string", "Text to count 'r' characters in"))] |}
             "text" ("string", "Text to count 'r' characters in")).
    + right. left. reflexivity.
    + left. reflexivity.
    + reflexivity.
Defined.

(* ================================================================== *)
(** * The port the server starts on *)

Lemma find_port_some (in_use : Z -> bool) (n : nat) (start p : Z) :
  find_port in_use n start = Some p ->
  (start <= p < start + Z.of_nat n)%Z /\ in_use p = false
  /\ forall q, (start <= q < p)%Z -> in_use q = true.
Proof.
  revert start. induction n as [|n IH]; intros start; [discriminate|].
  cbn [find_port]. destruct (in_use start) eqn:E; cbn [negb].
  - intros H. destruct (IH _ H) as (Hr & Hp & Hq).
    split; [lia|]. split; [exact Hp|].
    intros q Hrange. destruct (Z.eq_dec q start) as [->|Hne];
      [exact E | apply Hq; lia].
  - intros [= <-]. split; [lia|]. split; [exact E|]. intros q Hrange. lia.
Qed.

Lemma find_port_none (in_use : Z -> bool) (n : nat) (start : Z) :
  find_port in_use n start = None <->
  forall q, (start <= q < start + Z.of_nat n)%Z -> in_use q = true.
Proof.
  revert start. induction n as [|n IH]; intros start.
  - split; [intros _ q Hq; lia | reflexivity].
  - cbn [find_port]. destruct (in_use start) eqn:E; cbn [negb].
    + rewrite IH. split; intros H q Hq.
      * destruct (Z.eq_dec q start) as [->|Hne]; [exact E | apply H; lia].
      * apply H. lia.
    + split; [discriminate|]. intros H. rewrite H in E; [discriminate | lia].
Qed.

(** X14: the server starts on the first port from 8081 to 8085 that
    nothing listens on; it gives up exactly when all five are in use,
    and tries no port beyond 8085. *)
Theorem server_port_is_first_free (in_use : Z -> bool) :
  (forall p, server_port in_use = Some p ->
     (8081 <= p <= 8085)%Z /\ in_use p = false
     /\ forall q, (8081 <= q < p)%Z -> in_use q = true)
  /\ (server_port in_use = None <->
      forall q, (8081 <= q <= 8085)%Z -> in_use q = true).
Proof.
  unfold server_port. split.
  - intros p H. apply find_port_some in H as (Hr & Hp & Hq).
    split; [lia|]. split; assumption.
  - rewrite find_port_none. split; intros H q Hq; apply H; lia.
Qed.

Lemma server_port_is_first_free_witness :
  (8081 <= 8083 <= 8085)%Z
  /\ server_port (fun p => (p <=? 8085)%Z) = None.
Proof.
  split.
  - apply (proj1 (server_port_is_first_free (fun p => (p <? 8083)%Z)) 8083%Z).
    reflexivity.
  - apply (proj2 (server_port_is_first_free (fun p => (p <=? 8085)%Z))).
    intros q Hq. apply Z.leb_le. lia.
Defined.

(* ================================================================== *)
(** * The request of the agent and its answer *)

Lemma map_const {A : Type} (l : list A) (x : string) :
  List.map (fun _ => x) l = repeat x (length l).
Proof. induction l as [|a l IH]; [reflexivity|]. cbn. now rewrite IH. Qed.

(** X15: the request [process] sends names the model [gpt-3.5-turbo]
    and holds the context strings in their order as [system] messages,
    then the prompt as the one [user] message, the last; without a
    context, or with an empty one, it holds the prompt alone.  A
    parameter takes its value from the dict when the dict has the key
    and its default otherwise: an absent dict, an empty one and a
    missing key all give the default. *)
Theorem request_of_process (value : Type) (default_temperature default_max_tokens : value)
    (prompt : string) (context : option (list string))
    (parameters : option (gmap string value)) :
  let r := MCPAgent.request value default_temperature default_max_tokens
             prompt context parameters in
  let ctxs := match context with Some l => l | None => [] end in
  let get key dflt :=
    match parameters with
    | Some d => match d !! key with Some v => v | None => dflt end
    | None => dflt
    end in
  MCPAgent.model value r = "gpt-3.5-turbo"
  /\ List.map MCPAgent.content (MCPAgent.messages value r) = (ctxs ++ [prompt])%list
  /\ List.map MCPAgent.role (MCPAgent.messages value r)
     = (repeat "system" (length ctxs) ++ ["user"])%list
  /\ MCPAgent.temperature value r = get "temperature" default_temperature
  /\ MCPAgent.max_tokens value r = get "max_tokens" default_max_tokens.
Proof.
  cbv zeta. unfold MCPAgent.request.
  cbn [MCPAgent.model MCPAgent.messages MCPAgent.temperature MCPAgent.max_tokens].
  split; [reflexivity|].
  assert (Hp : forall key dflt,
             MCPAgent.parameter value parameters key dflt
             = match parameters with
               | Some d => match d !! key with Some v => v | None => dflt end
               | None => dflt
               end).
  { intros key dflt. unfold MCPAgent.parameter.
    destruct parameters as [d|]; [|reflexivity].
    destruct (decide (d = ∅)) as [->|_]; [|reflexivity].
    now rewrite lookup_empty. }
  rewrite !Hp.
  assert (Hm : match context with
               | None | Some [] => []
               | Some ctxs =>
                   List.map (fun ctx => {| MCPAgent.role := "system";
                                           MCPAgent.content := ctx |}) ctxs
               end
               = List.map (fun ctx => {| MCPAgent.role := "system";
                                         MCPAgent.content := ctx |})
                   match context with Some l => l | None => [] end).
  { destruct context as [[|c l]|]; reflexivity. }
  rewrite Hm. rewrite !List.map_app, !List.map_map.
  cbn [MCPAgent.content MCPAgent.role List.map].
  split; [now rewrite List.map_id|].
  split; [|split; reflexivity].
  f_equal. apply map_const.
Qed.

(** X16: [process] returns the content of the first choice of the
    answer; an answer without a choice and an error of the remote call
    are both raised as the one exception of [process], whose text
    starts with [Error processing request: ]. *)
Theorem process_answer (value : Type) (default_temperature default_max_tokens : value)
    (acreate : MCPAgent.completion value -> string + list string)
    (prompt : string) (context : option (list string))
    (parameters : option (gmap string value)) :
  let r := MCPAgent.request value default_temperature default_max_tokens
             prompt context parameters in
  let answer := MCPAgent.process value default_temperature default_max_tokens
                  acreate prompt context parameters in
  (forall first others, acreate r = inr (first :: others) -> answer = inr first)
  /\ (acreate r = inr [] ->
      answer = inl "Error processing request: list index out of range")
  /\ (forall cause, acreate r = inl cause ->
        answer = inl ("Error processing request: " ++ cause))
  /\ (forall e, answer = inl e ->
        String.prefix "Error processing request: " e = true).
Proof.
  cbv zeta. unfold MCPAgent.process.
  destruct (acreate _) as [cause|[|first others]].
  - repeat split; try discriminate.
    + now intros ? [= ->].
    + intros e [= <-]. apply prefix_app.
  - repeat split; try discriminate. now intros e [= <-].
  - repeat split; try discriminate. now intros ? ? [= -> _].
Qed.

Lemma process_answer_witness :
  MCPAgent.process string "0.7" "1000"
    (fun r => inr (List.map MCPAgent.content (MCPAgent.messages string r)))
    "hello" (Some ["be brief"]) None
  = inr "be brief".
Proof.
  apply (proj1 (process_answer string "0.7" "1000"
                  (fun r => inr (List.map MCPAgent.content (MCPAgent.messages string r)))
                  "hello" (Some ["be brief"]) None)
           "be brief" ["hello"]).
  reflexivity.
Defined.

(* ================================================================== *)
(** * The paths [normalize_path] returns as they are *)

Lemma normalized_of_normal (os : os_state) (q : string) :
  Posix.isabs q = true -> Posix.normpath q = q ->
  Str.contains q "$" = false ->
  normalized os q = q.
Proof.
  intros Habs Hfix Hd. unfold normalized, Posix.expandvars.
  rewrite (expand_without_dollar (environ os) q Hd), Habs. exact Hfix.
Qed.

(** X17: an absolute, normalized path without a dollar sign that starts
    with an allowed directory is accepted and returned as it is; so,
    when the working directory is absolute, a path the validator has
    returned is returned again when it is validated a second time,
    unless it holds a dollar sign. *)
Theorem normalize_path_fixed_points (os : os_state) (p q d : string) :
  (In d (allowed_dirs os) -> Str.startswith q d = true ->
   Posix.isabs q = true -> Posix.normpath q = q ->
   Str.contains q "$" = false ->
   normalize_path os q = Ok q)
  /\ (Posix.isabs (getcwd os) = true -> normalize_path os p = Ok q ->
      Str.contains q "$" = false ->
      normalize_path os q = Ok q).
Proof.
  assert (Hacc : forall q' d', In d' (allowed_dirs os) ->
            Str.startswith q' d' = true -> Posix.isabs q' = true ->
            Posix.normpath q' = q' -> Str.contains q' "$" = false ->
            normalize_path os q' = Ok q').
  { intros q' d' Hin Hpre Habs Hfix Hd. rewrite normalize_path_cases.
    rewrite (normalized_of_normal os q' Habs Hfix Hd).
    replace (existsb _ _) with true; [reflexivity|].
    symmetry. apply existsb_exists. exists d'. split; assumption. }
  split; [apply Hacc|].
  intros Hcwd Hq Hd. pose proof Hq as Hq'. rewrite normalize_path_cases in Hq'.
  destruct (existsb _ _) eqn:E; [|discriminate]. injection Hq' as <-.
  apply existsb_exists in E as (d' & Hin & Hpre).
  apply (Hacc _ d' Hin Hpre);
    [apply normalized_abs, Hcwd | apply normalized_fixed | exact Hd].
Qed.

Lemma normalize_path_fixed_points_witness :
  normalize_path os_example "/home/u/Documents/notes.txt"
  = Ok "/home/u/Documents/notes.txt".
Proof.
  apply (proj2 (normalize_path_fixed_points os_example
                  "$HOME/Documents/sub/../notes.txt"
                  "/home/u/Documents/notes.txt" "")); reflexivity.
Defined.

(* ================================================================== *)
(** * Where a status 500 of [execute_tool] comes from *)

(** X18: the body of [execute_tool] raises nothing but an
    [HTTPException], so its catch-all clause is never used; a status
    500 of [execute_tool] is a status 500 of [read_file], with the same
    detail. *)
Theorem execute_tool_500_is_read_file (g : globals) (os : os_state)
    (fs : gmap string node) (name : string) (parameters : gmap string string) :
  execute_tool g os fs name parameters
  = execute_tool_try g os fs name parameters
  /\ forall detail,
       execute_tool g os fs name parameters = Raise (HTTPException 500 detail) ->
       name = "read_file"
       /\ exists file_path,
            parameters !! "file_path" = Some file_path
            /\ read_file g os fs file_path = Raise (HTTPException 500 detail).
Proof.
  unfold execute_tool, execute_tool_try.
  destruct (String.eqb_spec name "read_file") as [->|_].
  - destruct (parameters !! "file_path") as [fp|];
      [|split; [reflexivity | discriminate]].
    destruct (String.eqb fp ""); [split; [reflexivity | discriminate]|].
    destruct (read_file g os fs fp) as [content|e] eqn:E; cbn [bind].
    + split; [reflexivity | discriminate].
    + apply read_file_raises_http in E as E'. destruct E' as (s & d & ->).
      split; [reflexivity|]. intros detail [= -> ->].
      split; [reflexivity|]. exists fp. split; [reflexivity | exact E].
  - destruct (String.eqb name "count_r").
    + destruct (parameters !! "text") as [tx|];
        [|split; [reflexivity | discriminate]].
      destruct (String.eqb tx ""); split; try reflexivity; discriminate.
    + split; [reflexivity | discriminate].
Qed.

Lemma execute_tool_500_is_read_file_witness :
  read_file (main_py []) os_example fs_example "/home/u/Documents/notes.txt"
  = Raise (HTTPException 500 (name_error_detail "/home/u/Documents/notes.txt")).
Proof.
  assert (H : execute_tool (main_py []) os_example fs_example "read_file"
                (<["file_path" := "/home/u/Documents/notes.txt"]> ∅)
              = Raise (HTTPException 500
                         (name_error_detail "/home/u/Documents/notes.txt")))
    by reflexivity.
  apply (proj2 (execute_tool_500_is_read_file (main_py []) os_example
                  fs_example "read_file"
                  (<["file_path" := "/home/u/Documents/notes.txt"]> ∅))) in H.
  destruct H as (_ & fp & Hfp & Hread).
  injection Hfp as <-. exact Hread.
Defined.
